(** * The speech-coach session controller, embedded in Rocq

    The development follows the two React components of the repository:

    - the speech-coach widget (the component titled "Speech Coach", with
      the backend session, the audio capture and the stats poller);
    - the plain note-taking widget [src/frontend/src/components/VoiceNotes.js],
      embedded in [Module Notes].

    A React function component is re-run on every render.  The variables a
    handler mentions ([isRecording], [sessionId], [finalTranscript], ...)
    are the constants of the render that created the handler, whereas the
    setters ([setIsRecording], ...) and the refs ([recognitionRef.current],
    ...) act on the one live store.  The embedding keeps the two apart:
    every handler takes the render it closes over as its argument [view]
    and reads the state variables from it; writes and refs go through the
    monad [M] over the live [Store].  A handler runs to completion: the
    interleaving of several asynchronous handlers is not modelled. *)

From Stdlib Require Import NArith QArith Lqa String Ascii.
From stdpp Require Import base option list gmap strings pretty.

Open Scope N_scope.

(** ** JavaScript strings *)

(** A string is its sequence of UTF-16 code units; [===] on strings is
    equality of the sequences, and a string is truthy when it is not
    empty. *)
Definition jsstring := list N.

Definition js (s : string) : jsstring :=
  map N_of_ascii (list_ascii_of_string s).

Arguments js : simpl never.

Definition nonEmpty (s : jsstring) : bool :=
  match s with [] => false | _ :: _ => true end.

Definition strEq (a b : jsstring) : bool := bool_decide (a = b).

(** WhiteSpace and LineTerminator code units of ECMAScript, the ones
    [String.prototype.trim] removes. *)
Definition isWhiteSpace (c : N) : bool :=
  (c =? 9) || (c =? 10) || (c =? 11) || (c =? 12) || (c =? 13) || (c =? 32)
  || (c =? 160) || (c =? 5760) || ((8192 <=? c) && (c <=? 8202))
  || (c =? 8232) || (c =? 8233) || (c =? 8239) || (c =? 8287)
  || (c =? 12288) || (c =? 65279).

Fixpoint trimStart (s : jsstring) : jsstring :=
  match s with
  | [] => []
  | c :: r => if isWhiteSpace c then trimStart r else s
  end.

Definition trimEnd (s : jsstring) : jsstring := rev (trimStart (rev s)).

Definition trim (s : jsstring) : jsstring := trimEnd (trimStart s).

(** [`${n}`] for a number that is a natural. *)
Definition decimal (n : N) : jsstring := js (pretty n).
Arguments decimal : simpl never.

(** ** Backend responses *)

(** What [await fetch(...)] followed by [response.json()] can give: the
    promise rejects (network error), or a response arrives with a status
    and a body that either fails to decode ([inl], with the message of the
    exception) or decodes to the expected object. *)
Inductive fetched (A : Type) : Type :=
| Rejected (msg : jsstring)
| Responded (status : N) (body : jsstring + A).
Arguments Rejected {A} msg.
Arguments Responded {A} status body.

(** [response.ok] *)
Definition ok (status : N) : bool := (200 <=? status) && (status <=? 299).

(** The seven metrics are properties of a plain object; the controller
    never computes with their values. *)
Abbreviation stats := (gmap jsstring Z).

Definition initialStats : stats :=
  list_to_map
    [ (js "fluency", 0%Z); (js "volume", 0%Z); (js "articulation", 0%Z);
      (js "clarity", 0%Z); (js "filler_words", 0%Z);
      (js "speaking_rate", 0%Z); (js "confidence", 0%Z) ].

(** [{ ...prev, ...live_stats }]: the properties of [live_stats] are copied
    over a copy of [prev]. *)
Definition spread (prev live_stats : stats) : stats := live_stats ∪ prev.

Record Analysis := {
  overall_score : Z;
  observations : list jsstring;
  improvements : list jsstring;
  quick_tip : jsstring
}.

(** [{success, session_id, error}] *)
Record CreateReply := {
  c_success : bool;
  c_session_id : option jsstring;
  c_error : option jsstring
}.

(** [{success, error}] *)
Record StartReply := { s_success : bool; s_error : option jsstring }.

(** [{success, live_stats}]; [None] is an absent (or falsy) [live_stats]. *)
Record StatsReply := { l_success : bool; l_live_stats : option stats }.

(** [{success, analysis, error}] *)
Record StopReply := {
  p_success : bool;
  p_analysis : option Analysis;
  p_error : option jsstring
}.

(** Truthiness of a value that is [null]/[undefined] or a string. *)
Definition truthy (v : option jsstring) : bool :=
  match v with Some s => nonEmpty s | None => false end.

(** [v || d] for such a value. *)
Definition orElse (v : option jsstring) (d : jsstring) : jsstring :=
  match v with
  | Some s => if nonEmpty s then s else d
  | None => d
  end.

(** ** The component's state, refs and the browser *)

Inductive Tab := NotesTab | VoiceTab | TipsTab.

(** The [useState] variables the controller logic touches. *)
Record State := {
  error : jsstring;
  isRecording : bool;
  transcript : jsstring;
  finalTranscript : jsstring;
  activeTab : Tab;
  sessionId : option jsstring;
  liveStats : stats;
  speechAnalysis : option Analysis;
  isProcessingAudio : bool
}.

Definition initialState : State := {|
  error := [];
  isRecording := false;
  transcript := [];
  finalTranscript := [];
  activeTab := NotesTab;
  sessionId := None;
  liveStats := initialStats;
  speechAnalysis := None;
  isProcessingAudio := false
|}.

(** The variables of its creating render that a recognition object's
    handlers mention. *)
Record Recognition := {
  r_finalTranscript : jsstring;
  r_isRecording : bool;
  r_sessionId : option jsstring
}.

Inductive RecorderState := Inactive | Capturing | Paused.

(** A [MediaRecorder]: its [state], and the variables of the creating
    render that its [ondataavailable] handler mentions. *)
Record Recorder := {
  m_state : RecorderState;
  m_sessionId : option jsstring;
  m_isRecording : bool
}.

(** An audio chunk is its bytes. *)
Definition Blob := list N.

(** The [useRef] cells.  Timer ids are positive integers, hence truthy. *)
Record Refs := {
  recognitionRef : option Recognition;
  audioContextRef : option unit;
  mediaRecorderRef : option Recorder;
  audioChunks : list Blob;
  statsIntervalRef : option positive;
  lastProcessedText : jsstring
}.

Definition initialRefs : Refs := {|
  recognitionRef := None;
  audioContextRef := None;
  mediaRecorderRef := None;
  audioChunks := [];
  statsIntervalRef := None;
  lastProcessedText := []
|}.

(** [audio_data] of an audio request: empty, or [btoa] of the chunk (kept
    symbolic). *)
Inductive AudioData := NoAudio | Base64 (bytes : Blob).

Inductive Request :=
| CreateSession
| StartSession (id : jsstring)
| PostAudio (id : jsstring) (audio_data : AudioData) (text_chunk : jsstring)
| GetStats (id : jsstring)
| StopSession (id : jsstring)
| DeleteSession (id : jsstring).

(** What the component does to the outside, in the order it does it. *)
Inductive Effect :=
| Fetch (r : Request)
| GetUserMedia
| AudioContextNew
| AudioContextClose
| RecorderNew
| RecorderStart (timeslice : N)
| RecorderStop
| RecognitionNew
| RecognitionStart
| RecognitionStop
| SetInterval (id : positive) (ms : N)
| ClearInterval (id : positive)
| SetTimeout (id : positive) (ms : N).

(** The live store: React's current state, the refs, the browser's timer
    tables and the log of effects.  An interval is kept with the
    [currentSessionId] its callback closes over, a timeout with the
    recognition object whose [onend] armed it. *)
Record Store := {
  state : State;
  refs : Refs;
  intervals : gmap positive (option jsstring);
  timeouts : gmap positive Recognition;
  nextTimer : positive;
  log : list Effect
}.

Definition initialStore : Store := {|
  state := initialState;
  refs := initialRefs;
  intervals := ∅;
  timeouts := ∅;
  nextTimer := 1%positive;
  log := []
|}.

(** ** The monad of handler bodies: live store and exceptions *)

Inductive Outcome (A : Type) : Type :=
| Return (a : A)
| Throw (message : jsstring).
Arguments Return {A} a.
Arguments Throw {A} message.

Definition M (A : Type) : Type := Store -> Outcome A * Store.

Definition ret {A} (a : A) : M A := fun s => (Return a, s).

Definition bind {A B} (m : M A) (k : A -> M B) : M B :=
  fun s =>
    match m s with
    | (Return a, s') => k a s'
    | (Throw e, s') => (Throw e, s')
    end.

Definition throw {A} (message : jsstring) : M A := fun s => (Throw message, s).

(** [try { body } catch (error) { handler(error.message) }] *)
Definition tryCatch {A} (body : M A) (handler : jsstring -> M A) : M A :=
  fun s =>
    match body s with
    | (Return a, s') => (Return a, s')
    | (Throw e, s') => handler e s'
    end.

(** [try { body } finally { cleanup }], for a cleanup that does not throw. *)
Definition tryFinally {A} (body : M A) (cleanup : M unit) : M A :=
  fun s =>
    match body s with
    | (r, s') => (r, snd (cleanup s'))
    end.

Notation "x <- m ;; k" := (bind m (fun x => k))
  (at level 100, m at next level, right associativity).
Notation "m ;; k" := (bind m (fun _ => k))
  (at level 100, right associativity).

Definition when (b : bool) (m : M unit) : M unit := if b then m else ret tt.

(** The store a handler leaves behind. *)
Definition run (m : M unit) (s : Store) : Store := snd (m s).

Definition setState (f : State -> State) : M unit :=
  fun s => (Return tt,
            {| state := f (state s); refs := refs s; intervals := intervals s;
               timeouts := timeouts s; nextTimer := nextTimer s; log := log s |}).

Definition getRefs : M Refs := fun s => (Return (refs s), s).

Definition setRefs (f : Refs -> Refs) : M unit :=
  fun s => (Return tt,
            {| state := state s; refs := f (refs s); intervals := intervals s;
               timeouts := timeouts s; nextTimer := nextTimer s; log := log s |}).

Definition emit (e : Effect) : M unit :=
  fun s => (Return tt,
            {| state := state s; refs := refs s; intervals := intervals s;
               timeouts := timeouts s; nextTimer := nextTimer s;
               log := log s ++ [e] |}).

(** *** Setters of the state variables and the ref cells *)

Definition withError (v : jsstring) (st : State) : State :=
  {| error := v; isRecording := isRecording st; transcript := transcript st;
     finalTranscript := finalTranscript st; activeTab := activeTab st;
     sessionId := sessionId st; liveStats := liveStats st;
     speechAnalysis := speechAnalysis st;
     isProcessingAudio := isProcessingAudio st |}.

Definition withIsRecording (v : bool) (st : State) : State :=
  {| error := error st; isRecording := v; transcript := transcript st;
     finalTranscript := finalTranscript st; activeTab := activeTab st;
     sessionId := sessionId st; liveStats := liveStats st;
     speechAnalysis := speechAnalysis st;
     isProcessingAudio := isProcessingAudio st |}.

Definition withTranscript (v : jsstring) (st : State) : State :=
  {| error := error st; isRecording := isRecording st; transcript := v;
     finalTranscript := finalTranscript st; activeTab := activeTab st;
     sessionId := sessionId st; liveStats := liveStats st;
     speechAnalysis := speechAnalysis st;
     isProcessingAudio := isProcessingAudio st |}.

Definition withFinalTranscript (v : jsstring) (st : State) : State :=
  {| error := error st; isRecording := isRecording st;
     transcript := transcript st; finalTranscript := v;
     activeTab := activeTab st; sessionId := sessionId st;
     liveStats := liveStats st; speechAnalysis := speechAnalysis st;
     isProcessingAudio := isProcessingAudio st |}.

Definition withActiveTab (v : Tab) (st : State) : State :=
  {| error := error st; isRecording := isRecording st;
     transcript := transcript st; finalTranscript := finalTranscript st;
     activeTab := v; sessionId := sessionId st; liveStats := liveStats st;
     speechAnalysis := speechAnalysis st;
     isProcessingAudio := isProcessingAudio st |}.

Definition withSessionId (v : option jsstring) (st : State) : State :=
  {| error := error st; isRecording := isRecording st;
     transcript := transcript st; finalTranscript := finalTranscript st;
     activeTab := activeTab st; sessionId := v; liveStats := liveStats st;
     speechAnalysis := speechAnalysis st;
     isProcessingAudio := isProcessingAudio st |}.

Definition withLiveStats (v : stats) (st : State) : State :=
  {| error := error st; isRecording := isRecording st;
     transcript := transcript st; finalTranscript := finalTranscript st;
     activeTab := activeTab st; sessionId := sessionId st; liveStats := v;
     speechAnalysis := speechAnalysis st;
     isProcessingAudio := isProcessingAudio st |}.

Definition withSpeechAnalysis (v : option Analysis) (st : State) : State :=
  {| error := error st; isRecording := isRecording st;
     transcript := transcript st; finalTranscript := finalTranscript st;
     activeTab := activeTab st; sessionId := sessionId st;
     liveStats := liveStats st; speechAnalysis := v;
     isProcessingAudio := isProcessingAudio st |}.

Definition withIsProcessingAudio (v : bool) (st : State) : State :=
  {| error := error st; isRecording := isRecording st;
     transcript := transcript st; finalTranscript := finalTranscript st;
     activeTab := activeTab st; sessionId := sessionId st;
     liveStats := liveStats st; speechAnalysis := speechAnalysis st;
     isProcessingAudio := v |}.

Definition setError (v : jsstring) : M unit := setState (withError v).
Definition setIsRecording (v : bool) : M unit := setState (withIsRecording v).
Definition setTranscript (v : jsstring) : M unit := setState (withTranscript v).
Definition setFinalTranscript (v : jsstring) : M unit :=
  setState (withFinalTranscript v).
Definition setActiveTab (v : Tab) : M unit := setState (withActiveTab v).
Definition setSessionId (v : option jsstring) : M unit :=
  setState (withSessionId v).
Definition setLiveStats (v : stats) : M unit := setState (withLiveStats v).
Definition setSpeechAnalysis (v : option Analysis) : M unit :=
  setState (withSpeechAnalysis v).
Definition setIsProcessingAudio (v : bool) : M unit :=
  setState (withIsProcessingAudio v).

Definition withRecognitionRef (v : option Recognition) (r : Refs) : Refs :=
  {| recognitionRef := v; audioContextRef := audioContextRef r;
     mediaRecorderRef := mediaRecorderRef r; audioChunks := audioChunks r;
     statsIntervalRef := statsIntervalRef r;
     lastProcessedText := lastProcessedText r |}.

Definition withAudioContextRef (v : option unit) (r : Refs) : Refs :=
  {| recognitionRef := recognitionRef r; audioContextRef := v;
     mediaRecorderRef := mediaRecorderRef r; audioChunks := audioChunks r;
     statsIntervalRef := statsIntervalRef r;
     lastProcessedText := lastProcessedText r |}.

Definition withMediaRecorderRef (v : option Recorder) (r : Refs) : Refs :=
  {| recognitionRef := recognitionRef r; audioContextRef := audioContextRef r;
     mediaRecorderRef := v; audioChunks := audioChunks r;
     statsIntervalRef := statsIntervalRef r;
     lastProcessedText := lastProcessedText r |}.

Definition withAudioChunks (v : list Blob) (r : Refs) : Refs :=
  {| recognitionRef := recognitionRef r; audioContextRef := audioContextRef r;
     mediaRecorderRef := mediaRecorderRef r; audioChunks := v;
     statsIntervalRef := statsIntervalRef r;
     lastProcessedText := lastProcessedText r |}.

Definition withStatsIntervalRef (v : option positive) (r : Refs) : Refs :=
  {| recognitionRef := recognitionRef r; audioContextRef := audioContextRef r;
     mediaRecorderRef := mediaRecorderRef r; audioChunks := audioChunks r;
     statsIntervalRef := v; lastProcessedText := lastProcessedText r |}.

Definition withLastProcessedText (v : jsstring) (r : Refs) : Refs :=
  {| recognitionRef := recognitionRef r; audioContextRef := audioContextRef r;
     mediaRecorderRef := mediaRecorderRef r; audioChunks := audioChunks r;
     statsIntervalRef := statsIntervalRef r; lastProcessedText := v |}.

(** [recorder.state = v], on the recorder object itself. *)
Definition withRecorderState (v : RecorderState) (m : Recorder) : Recorder :=
  {| m_state := v; m_sessionId := m_sessionId m;
     m_isRecording := m_isRecording m |}.

(** *** The browser's timers *)

(** [setInterval(callback, ms)], for the polling callback closing over
    [currentSessionId]. *)
Definition setInterval (currentSessionId : option jsstring) (ms : N)
  : M positive :=
  fun s =>
    let id := nextTimer s in
    (Return id,
     {| state := state s; refs := refs s;
        intervals := <[id := currentSessionId]> (intervals s);
        timeouts := timeouts s; nextTimer := Pos.succ id;
        log := log s ++ [SetInterval id ms] |}).

Definition clearInterval (id : positive) : M unit :=
  fun s =>
    (Return tt,
     {| state := state s; refs := refs s;
        intervals := delete id (intervals s);
        timeouts := timeouts s; nextTimer := nextTimer s;
        log := log s ++ [ClearInterval id] |}).

(** [setTimeout(callback, ms)], for the restart callback of [r]'s
    [onend]. *)
Definition setTimeout (r : Recognition) (ms : N) : M positive :=
  fun s =>
    let id := nextTimer s in
    (Return id,
     {| state := state s; refs := refs s; intervals := intervals s;
        timeouts := <[id := r]> (timeouts s); nextTimer := Pos.succ id;
        log := log s ++ [SetTimeout id ms] |}).

(** A timeout fires once: the browser drops it from its table. *)
Definition dropTimeout (id : positive) : M unit :=
  fun s =>
    (Return tt,
     {| state := state s; refs := refs s; intervals := intervals s;
        timeouts := delete id (timeouts s); nextTimer := nextTimer s;
        log := log s |}).

(** ** The speech-coach component's functions *)

(** [fetch(...)] of request [r] answered by [w], in the shape four of the
    functions share: throw on a status that is not [ok], else decode. *)
Definition fetchJson {A} (r : Request) (w : fetched A) : M A :=
  emit (Fetch r);;
  match w with
  | Rejected message => throw message
  | Responded status body =>
      if ok status then
        match body with
        | inl message => throw message
        | inr data => ret data
        end
      else throw (js "HTTP error! status: " ++ decimal status)
  end.

(** A value that is truthy, as the string it then is. *)
Definition whenTruthy (v : option jsstring) : option jsstring :=
  match v with
  | Some s => if nonEmpty s then Some s else None
  | None => None
  end.

(** The callback [startStatsPolling] hands to [setInterval]; [w] answers
    its request. *)
Definition statsIntervalCallback (currentSessionId : option jsstring)
    (w : fetched StatsReply) : M unit :=
  match whenTruthy currentSessionId with
  | None => ret tt
  | Some id =>
      tryCatch
        (emit (Fetch (GetStats id));;
         match w with
         | Rejected message => throw message
         | Responded status body =>
             if ok status then
               match body with
               | inl message => throw message
               | inr data =>
                   match l_live_stats data with
                   | Some live_stats =>
                       when (l_success data)
                         (setState (fun prev =>
                            withLiveStats (spread (liveStats prev) live_stats)
                                          prev))
                   | None => ret tt
                   end
               end
             else ret tt
         end)
        (fun _ => ret tt)
  end.

Definition startStatsPolling (currentSessionId : option jsstring) : M unit :=
  r <- getRefs;;
  match statsIntervalRef r with
  | Some old => clearInterval old
  | None => ret tt
  end;;
  id <- setInterval currentSessionId 1000;;
  setRefs (withStatsIntervalRef (Some id)).

Definition stopStatsPolling : M unit :=
  r <- getRefs;;
  match statsIntervalRef r with
  | Some id => clearInterval id;; setRefs (withStatsIntervalRef None)
  | None => ret tt
  end.

(** The browser runs the callback of interval [id], if that interval is
    still in its table. *)
Definition fireInterval (id : positive) (w : fetched StatsReply) : M unit :=
  fun s =>
    match intervals s !! id with
    | Some currentSessionId => statsIntervalCallback currentSessionId w s
    | None => (Return tt, s)
    end.

Definition createVoiceSession (w : fetched CreateReply)
  : M (option jsstring) :=
  tryCatch
    (data <- fetchJson CreateSession w;;
     if c_success data then
       setSessionId (c_session_id data);;
       ret (c_session_id data)
     else throw (orElse (c_error data) (js "Failed to create session")))
    (fun message =>
       setError (js "Session creation failed: " ++ message);;
       ret None).

(** How far [initAudioProcessing] gets: [getUserMedia] rejects, the
    [AudioContext] constructor throws, the [MediaRecorder] constructor
    throws, or all three succeed. *)
Inductive AudioInit :=
| MicrophoneFailed (message : jsstring)
| ContextFailed (message : jsstring)
| RecorderFailed (message : jsstring)
| AudioReady.

(** Returns whether the result is the setup object (rather than [null]).
    The recorder's [ondataavailable] closes over [processAudioChunk] of
    the render [view].  The choice of a mime type is not modelled. *)
Definition initAudioProcessing (view : State) (w : AudioInit) : M bool :=
  tryCatch
    (emit GetUserMedia;;
     match w with
     | MicrophoneFailed message => throw message
     | ContextFailed message => throw message
     | RecorderFailed message =>
         emit AudioContextNew;;
         setRefs (withAudioContextRef (Some tt));;
         throw message
     | AudioReady =>
         emit AudioContextNew;;
         setRefs (withAudioContextRef (Some tt));;
         emit RecorderNew;;
         setRefs (withMediaRecorderRef
                    (Some {| m_state := Inactive;
                             m_sessionId := sessionId view;
                             m_isRecording := isRecording view |}));;
         ret true
     end)
    (fun message =>
       setError (js "Audio initialization failed: " ++ message);;
       ret false).

(** [processAudioChunk(audioData)] as a closure over [sessionId] and
    [isRecording]; [w] answers its request.  [textChunk] keeps its
    default, the empty string, at the only call. *)
Definition processAudioChunk (sessionId : option jsstring)
    (isRecording : bool) (audioData : Blob) (w : fetched StatsReply)
  : M unit :=
  match whenTruthy sessionId with
  | None => ret tt
  | Some id =>
      if negb isRecording then ret tt
      else
        tryCatch
          (data <- fetchJson (PostAudio id (Base64 audioData) []) w;;
           match l_live_stats data with
           | Some live_stats =>
               when (l_success data)
                 (setState (fun prev =>
                    withLiveStats (spread (liveStats prev) live_stats) prev))
           | None => ret tt
           end)
          (fun _ => ret tt)
  end.

(** [mediaRecorderRef.current.ondataavailable], for the recorder [m]. *)
Definition ondataavailable (m : Recorder) (data : Blob)
    (w : fetched StatsReply) : M unit :=
  if nonEmpty data then
    setRefs (fun r => withAudioChunks (audioChunks r ++ [data]) r);;
    processAudioChunk (m_sessionId m) (m_isRecording m) data w
  else ret tt.

(** [processTextUpdate(newText)] as a closure over [sessionId] and
    [isRecording]; [w] answers its request. *)
Definition processTextUpdate (sessionId : option jsstring)
    (isRecording : bool) (newText : jsstring) (w : fetched StatsReply)
  : M unit :=
  match whenTruthy sessionId with
  | None => ret tt
  | Some id =>
      if negb isRecording || negb (nonEmpty (trim newText)) then ret tt
      else
        r <- getRefs;;
        if strEq newText (lastProcessedText r) then ret tt
        else
          setRefs (withLastProcessedText newText);;
          tryCatch
            (emit (Fetch (PostAudio id NoAudio (trim newText)));;
             match w with
             | Rejected message => throw message
             | Responded status body =>
                 if ok status then
                   match body with
                   | inl message => throw message
                   | inr data =>
                       match l_live_stats data with
                       | Some live_stats =>
                           when (l_success data)
                             (setState (fun prev =>
                                withLiveStats
                                  (spread (liveStats prev) live_stats) prev))
                       | None => ret tt
                       end
                   end
                 else ret tt
             end)
            (fun _ => ret tt)
  end.

(** *** Speech recognition *)

(** One entry of [event.results]: the transcript of its first alternative
    and its [isFinal] flag. *)
Record SpeechResult := { text : jsstring; isFinal : bool }.

Record ResultEvent := { resultIndex : nat; results : list SpeechResult }.

(** One turn of the loop of [onresult], on the triple
    [(interim, final, newFinalText)]. *)
Definition scanResult (acc : jsstring * jsstring * jsstring)
    (res : SpeechResult) : jsstring * jsstring * jsstring :=
  let '(interim, final, newFinalText) := acc in
  if isFinal res then (interim, final ++ (text res ++ js " "), text res)
  else (interim ++ text res, final, newFinalText).

(** [for (let i = event.resultIndex; i < event.results.length; i++)] *)
Definition scanResults (event : ResultEvent)
  : jsstring * jsstring * jsstring :=
  fold_left scanResult (drop (resultIndex event) (results event)) ([], [], []).

(** [recognition.onresult] of the recognition object [r]; [w] answers the
    request of [processTextUpdate]. *)
Definition onresult (r : Recognition) (event : ResultEvent)
    (w : fetched StatsReply) : M unit :=
  let '(interim, final, newFinalText) := scanResults event in
  if nonEmpty final then
    setState (fun prev =>
      withFinalTranscript (finalTranscript prev ++ final) prev);;
    setState (fun prev =>
      withTranscript (transcript prev ++ final ++ interim) prev);;
    when (nonEmpty (trim newFinalText))
      (processTextUpdate (r_sessionId r) (r_isRecording r)
         (trim newFinalText) w)
  else setTranscript (r_finalTranscript r ++ interim).

(** [recognition.onerror], on [event.error]. *)
Definition onerror (code : jsstring) : M unit :=
  if strEq code (js "not-allowed") then
    setError (js "Microphone access denied. Please allow microphone access and refresh the page.")
  else if strEq code (js "network") then
    setError (js "Network error during speech recognition.")
  else if negb (strEq code (js "no-speech")) then
    setError (js "Speech recognition error: " ++ code)
  else ret tt.

(** [recognition.onend] of the recognition object [r]. *)
Definition onend (r : Recognition) : M unit :=
  if r_isRecording r then
    _ <- setTimeout r 100;;
    ret tt
  else ret tt.

(** The callback [onend] hands to [setTimeout]; [failure] is the message
    of the exception [start()] throws, if any. *)
Definition restartCallback (r : Recognition) (failure : option jsstring)
  : M unit :=
  refs <- getRefs;;
  match recognitionRef refs with
  | Some _ =>
      if r_isRecording r then
        tryCatch
          (match failure with
           | Some message => throw message
           | None => emit RecognitionStart
           end)
          (fun _ => ret tt)
      else ret tt
  | None => ret tt
  end.

(** The browser runs the callback of timeout [id], once. *)
Definition fireTimeout (id : positive) (failure : option jsstring) : M unit :=
  fun s =>
    match timeouts s !! id with
    | Some r => (dropTimeout id;; restartCallback r failure) s
    | None => (Return tt, s)
    end.

(** [initSpeechRecognition()], as seen from the render [view].

    The function is [useCallback(..., [finalTranscript, isRecording])]:
    the closure in use was created by the current render or by an earlier
    one with the same [finalTranscript] and [isRecording].  Its handlers
    therefore see these two variables as [view] has them; [sessionId],
    which [processTextUpdate] mentions and the dependency list omits, is
    the one of the creating render, [memoSessionId].  [failure] is the
    message of the exception the constructor throws, if any. *)
Definition initSpeechRecognition (view : State)
    (memoSessionId : option jsstring) (failure : option jsstring)
  : M Recognition :=
  match failure with
  | Some message => throw message
  | None =>
      let recognition :=
        {| r_finalTranscript := finalTranscript view;
           r_isRecording := isRecording view;
           r_sessionId := memoSessionId |} in
      emit RecognitionNew;;
      setRefs (withRecognitionRef (Some recognition));;
      ret recognition
  end.

(** *** Start, stop, clear *)

(** What one run of [startRecording] meets: the answers of the backend,
    the outcome of the audio set-up, the exceptions (if any) of the
    recognition constructor, of [recognition.start()] and of
    [mediaRecorder.start(1000)], and the [sessionId] of the render that
    created the memoised [initSpeechRecognition]. *)
Record StartWorld := {
  w_create : fetched CreateReply;
  w_audio : AudioInit;
  w_start : fetched StartReply;
  w_recognitionNew : option jsstring;
  w_recognitionStart : option jsstring;
  w_recorderStart : option jsstring;
  w_memoSessionId : option jsstring
}.

(** The [try] block of [startRecording]. *)
Definition startRecordingBody (view : State) (w : StartWorld) : M unit :=
  currentSessionId <-
    match whenTruthy (sessionId view) with
    | Some id => ret id
    | None =>
        created <- createVoiceSession (w_create w);;
        match whenTruthy created with
        | Some id => ret id
        | None => throw (js "Failed to create voice session")
        end
    end;;
  audioSetup <- initAudioProcessing view (w_audio w);;
  (if audioSetup then ret tt else throw (js "Failed to initialize audio"));;
  data <- fetchJson (StartSession currentSessionId) (w_start w);;
  (if s_success data then ret tt
   else throw (orElse (s_error data) (js "Failed to start recording session")));;
  _ <- initSpeechRecognition view (w_memoSessionId w) (w_recognitionNew w);;
  match w_recognitionStart w with
  | Some message => throw message
  | None => emit RecognitionStart
  end;;
  refs <- getRefs;;
  match mediaRecorderRef refs with
  | Some m =>
      match w_recorderStart w with
      | Some message => throw message
      | None =>
          emit (RecorderStart 1000);;
          setRefs (withMediaRecorderRef (Some (withRecorderState Capturing m)))
      end
  | None => ret tt
  end;;
  setIsRecording true;;
  startStatsPolling (Some currentSessionId);;
  setRefs (withLastProcessedText []).

(** The [catch] block of [startRecording]. *)
Definition startRecordingCatch (message : jsstring) : M unit :=
  setError (js "Failed to start recording: " ++ message);;
  refs <- getRefs;;
  when (bool_decide (is_Some (recognitionRef refs))) (emit RecognitionStop);;
  match mediaRecorderRef refs with
  | Some m =>
      match m_state m with
      | Capturing =>
          emit RecorderStop;;
          setRefs (withMediaRecorderRef (Some (withRecorderState Inactive m)))
      | _ => ret tt
      end
  | None => ret tt
  end;;
  match audioContextRef refs with
  | Some _ => emit AudioContextClose;; setRefs (withAudioContextRef None)
  | None => ret tt
  end;;
  setIsRecording false.

Definition startRecording (view : State) (w : StartWorld) : M unit :=
  if isProcessingAudio view || isRecording view then ret tt
  else
    setIsProcessingAudio true;;
    setError [];;
    tryFinally
      (tryCatch (startRecordingBody view w) startRecordingCatch)
      (setIsProcessingAudio false).

Definition stopRecording (view : State) (w : fetched StopReply) : M unit :=
  match whenTruthy (sessionId view) with
  | None => ret tt
  | Some id =>
      if negb (isRecording view) then ret tt
      else
        setIsProcessingAudio true;;
        tryFinally
          (tryCatch
             (stopStatsPolling;;
              refs <- getRefs;;
              match recognitionRef refs with
              | Some _ =>
                  emit RecognitionStop;; setRefs (withRecognitionRef None)
              | None => ret tt
              end;;
              match mediaRecorderRef refs with
              | Some m =>
                  match m_state m with
                  | Capturing =>
                      emit RecorderStop;;
                      setRefs (withMediaRecorderRef
                                 (Some (withRecorderState Inactive m)))
                  | _ => ret tt
                  end
              | None => ret tt
              end;;
              match audioContextRef refs with
              | Some _ =>
                  emit AudioContextClose;; setRefs (withAudioContextRef None)
              | None => ret tt
              end;;
              setIsRecording false;;
              data <- fetchJson (StopSession id) w;;
              (if p_success data then
                 match p_analysis data with
                 | Some analysis =>
                     setSpeechAnalysis (Some analysis);;
                     setActiveTab TipsTab
                 | None => ret tt
                 end
               else throw (orElse (p_error data)
                             (js "Failed to stop recording session")));;
              setRefs (withAudioChunks []))
             (fun message =>
                setError (js "Failed to stop recording: " ++ message)))
          (setIsProcessingAudio false)
  end.

Definition toggleRecording (view : State) (wStart : StartWorld)
    (wStop : fetched StopReply) : M unit :=
  if isProcessingAudio view then ret tt
  else if isRecording view then stopRecording view wStop
  else startRecording view wStart.

(** The object literal [clearTranscript] and [handleLogout] pass to
    [setLiveStats]. *)
Definition zeroStats : stats :=
  list_to_map
    [ (js "fluency", 0%Z); (js "volume", 0%Z); (js "articulation", 0%Z);
      (js "clarity", 0%Z); (js "filler_words", 0%Z);
      (js "speaking_rate", 0%Z); (js "confidence", 0%Z) ].

(** The [DELETE] request of [clearTranscript] and [handleLogout]: only a
    rejection is looked at, and it is caught. *)
Definition deleteSession (id : jsstring) (w : fetched unit) : M unit :=
  tryCatch
    (emit (Fetch (DeleteSession id));;
     match w with
     | Rejected message => throw message
     | Responded _ _ => ret tt
     end)
    (fun _ => ret tt).

Definition clearTranscript (view : State) (wStop : fetched StopReply)
    (wDelete : fetched unit) : M unit :=
  when (isRecording view) (stopRecording view wStop);;
  setTranscript [];;
  setFinalTranscript [];;
  setSpeechAnalysis None;;
  match whenTruthy (sessionId view) with
  | Some id => deleteSession id wDelete;; setSessionId None
  | None => ret tt
  end;;
  setLiveStats zeroStats;;
  setRefs (withLastProcessedText []).

(** [handleLogout], without the authentication state ([user],
    [authMode]) that it also resets. *)
Definition handleLogout (view : State) (wStop : fetched StopReply)
    (wDelete : fetched unit) : M unit :=
  when (isRecording view) (stopRecording view wStop);;
  stopStatsPolling;;
  match whenTruthy (sessionId view) with
  | Some id => deleteSession id wDelete
  | None => ret tt
  end;;
  setTranscript [];;
  setFinalTranscript [];;
  setSessionId None;;
  setSpeechAnalysis None;;
  setLiveStats zeroStats;;
  setRefs (withLastProcessedText []).

(** The clean-up of the unmount effect. *)
Definition unmount : M unit :=
  stopStatsPolling;;
  refs <- getRefs;;
  when (bool_decide (is_Some (recognitionRef refs))) (emit RecognitionStop);;
  match mediaRecorderRef refs with
  | Some m =>
      match m_state m with
      | Capturing =>
          emit RecorderStop;;
          setRefs (withMediaRecorderRef (Some (withRecorderState Inactive m)))
      | _ => ret tt
      end
  | None => ret tt
  end;;
  when (bool_decide (is_Some (audioContextRef refs))) (emit AudioContextClose).

(** The requests among the effects logged so far. *)
Definition requests (s : Store) : list Request :=
  omap (fun e => match e with Fetch r => Some r | _ => None end) (log s).

(** ** The note-taking widget, [VoiceNotes.js] *)

Module Notes.

Record State := {
  error : jsstring;
  isRecording : bool;
  transcript : jsstring;
  finalTranscript : jsstring
}.

(** A recognition object: the [finalTranscript] of the render that
    created it ([useCallback(..., [finalTranscript])]). *)
Record Recognition := { r_finalTranscript : jsstring }.

Record Store := {
  state : State;
  recognitionRef : option Recognition;
  log : list Effect
}.

Definition initialStore : Store := {|
  state := {| error := []; isRecording := false; transcript := [];
              finalTranscript := [] |};
  recognitionRef := None;
  log := []
|}.

(** One turn of the loop of [onresult], on the pair [(interim, final)]. *)
Definition scanResult (acc : jsstring * jsstring) (res : SpeechResult)
  : jsstring * jsstring :=
  let '(interim, final) := acc in
  if isFinal res then (interim, final ++ (text res ++ js " "))
  else (interim ++ text res, final).

(** [recognition.onresult] of the recognition object [r]. *)
Definition onresult (r : Recognition) (event : ResultEvent) (s : Store)
  : Store :=
  let '(interim, final) :=
    fold_left scanResult (drop (resultIndex event) (results event))
      ([], r_finalTranscript r) in
  {| state := {| error := error (state s);
                 isRecording := isRecording (state s);
                 transcript := final ++ interim;
                 finalTranscript := final |};
     recognitionRef := recognitionRef s;
     log := log s |}.

(** [initSpeechRecognition()] as seen from the render [view]. *)
Definition initSpeechRecognition (view : State) (s : Store) : Store :=
  {| state := state s;
     recognitionRef :=
       Some {| r_finalTranscript := finalTranscript view |};
     log := log s ++ [RecognitionNew] |}.

Definition startRecording (view : State) (s : Store) : Store :=
  let s1 :=
    match recognitionRef s with
    | Some _ => s
    | None => initSpeechRecognition view s
    end in
  {| state := {| error := [];
                 isRecording := true;
                 transcript := transcript (state s1);
                 finalTranscript := finalTranscript (state s1) |};
     recognitionRef := recognitionRef s1;
     log := log s1 ++ [RecognitionStart] |}.

Definition stopRecording (s : Store) : Store :=
  {| state := {| error := error (state s);
                 isRecording := false;
                 transcript := transcript (state s);
                 finalTranscript := finalTranscript (state s) |};
     recognitionRef := recognitionRef s;
     log := match recognitionRef s with
            | Some _ => log s ++ [RecognitionStop]
            | None => log s
            end |}.

Definition clearTranscript (s : Store) : Store :=
  {| state := {| error := error (state s);
                 isRecording := isRecording (state s);
                 transcript := [];
                 finalTranscript := [] |};
     recognitionRef := recognitionRef s;
     log := log s |}.

End Notes.

(** ** Events of the recognition capability *)

(** An event all of whose new results are interim. *)
Definition interimEvent (event : ResultEvent) : Prop :=
  Forall (fun res => isFinal res = false)
         (drop (resultIndex event) (results event)).

(** An event whose one new result is final and carries [T]. *)
Definition finalEvent (T : jsstring) (event : ResultEvent) : Prop :=
  drop (resultIndex event) (results event) = [{| text := T; isFinal := true |}].

(** The recognition object [r] delivers the events one after the other;
    each request is answered by [w]. *)
Definition deliver (r : Recognition) (w : fetched StatsReply)
    (events : list ResultEvent) (s : Store) : Store :=
  fold_left (fun s event => run (onresult r event w) s) events s.

Definition interim (t : string) : ResultEvent :=
  {| resultIndex := 0; results := [{| text := js t; isFinal := false |}] |}.

Definition final (t : string) : ResultEvent :=
  {| resultIndex := 0; results := [{| text := js t; isFinal := true |}] |}.

(** A run of [startRecording] in which every step succeeds and the
    backend hands out the session id [id]. *)
Definition allGoesWell (id : string) : StartWorld := {|
  w_create := Responded 200 (inr {| c_success := true;
                                    c_session_id := Some (js id);
                                    c_error := None |});
  w_audio := AudioReady;
  w_start := Responded 200 (inr {| s_success := true; s_error := None |});
  w_recognitionNew := None;
  w_recognitionStart := None;
  w_recorderStart := None;
  w_memoSessionId := None
|}.

(** The store after the user has pressed Start on the fresh component and
    everything went well. *)
Definition started : Store :=
  run (startRecording initialState (allGoesWell "s1")) initialStore.

(** A poll tick fails: the request is rejected, the status is not [ok],
    the body does not decode, or it lacks [success] or [live_stats]. *)
Definition tickFails (w : fetched StatsReply) : bool :=
  match w with
  | Rejected _ => true
  | Responded status body =>
      negb (ok status)
      || match body with
         | inl _ => true
         | inr data =>
             negb (l_success data)
             || bool_decide (l_live_stats data = None)
         end
  end.

(** *** What the specification says of the deduplicator, word for word *)

(** "forwards it for analysis if and only if it differs from the last
    forwarded segment", for one call of the text-forwarding operation. *)
Definition forwardsIffNew (sessionId : option jsstring) (isRecording : bool)
    (segment : jsstring) (w : fetched StatsReply) (s : Store) : Prop :=
  requests (run (processTextUpdate sessionId isRecording segment w) s)
    <> requests s
  <-> segment <> lastProcessedText (refs s).

(** A run of [startRecording] in which the microphone is refused and
    everything else would go well. *)
Definition microphoneRefused : StartWorld := {|
  w_create := w_create (allGoesWell "s1");
  w_audio := MicrophoneFailed (js "Permission denied");
  w_start := w_start (allGoesWell "s1");
  w_recognitionNew := None;
  w_recognitionStart := None;
  w_recorderStart := None;
  w_memoSessionId := None
|}.

(** A run of [startRecording] in which [mediaRecorder.start(1000)] throws
    after everything before it, the start of the recognition included,
    went well. *)
Definition recorderRefuses : StartWorld := {|
  w_create := w_create (allGoesWell "s1");
  w_audio := AudioReady;
  w_start := w_start (allGoesWell "s1");
  w_recognitionNew := None;
  w_recognitionStart := None;
  w_recorderStart := Some (js "The MediaRecorder could not be started");
  w_memoSessionId := None
|}.

(** The browser fires interval [id] once per answer of [ws]. *)
Definition fireAll (id : positive) (ws : list (fetched StatsReply))
    (s : Store) : Store :=
  fold_left (fun s w => run (fireInterval id w) s) ws s.

(** The [session_id] a create answer hands to [setSessionId], when the
    creation succeeds; [None] when it fails. *)
Definition createdId (w : fetched CreateReply) : option (option jsstring) :=
  match w with
  | Responded status (inr data) =>
      if ok status && c_success data then Some (c_session_id data) else None
  | _ => None
  end.

(** *** The failures of the Starting transition, step by step *)

(** The message of the error that ends a start, told from what the run
    meets and not from the run itself: no usable session id (none in the
    render, and the creation fails or hands out none), the audio set-up
    fails, the start request fails (rejected, status not [ok], body not
    decodable, [success] false), or the recognition constructor, the
    start of the recognition or the start of the recorder throws.  [None]
    when no step fails. *)
Definition startFailure (view : State) (w : StartWorld) : option jsstring :=
  let session :=
    match whenTruthy (sessionId view) with
    | Some id => Some id
    | None =>
        match createdId (w_create w) with
        | Some created => whenTruthy created
        | None => None
        end
    end in
  match session, w_audio w, w_start w with
  | None, _, _ => Some (js "Failed to create voice session")
  | Some _, AudioReady, Rejected message => Some message
  | Some _, AudioReady, Responded status (inl message) =>
      if ok status then Some message
      else Some (js "HTTP error! status: " ++ decimal status)
  | Some _, AudioReady, Responded status (inr data) =>
      if negb (ok status) then
        Some (js "HTTP error! status: " ++ decimal status)
      else if negb (s_success data) then
        Some (orElse (s_error data) (js "Failed to start recording session"))
      else
        match w_recognitionNew w, w_recognitionStart w with
        | Some message, _ => Some message
        | None, Some message => Some message
        | None, None => w_recorderStart w
        end
  | Some _, _, _ => Some (js "Failed to initialize audio")
  end.

(** ** The component as a whole *)

(** What can happen to the mounted speech-coach component.  A press
    runs the handler of the latest render, so the render it closes over
    is the current state.  The events of the recognition and of the
    recorder are those of the objects the refs hold; the events a
    recognition object still delivers after [stopRecording] has dropped
    it from its ref are not covered. *)
Inductive Event :=
| PressToggle (wStart : StartWorld) (wStop : fetched StopReply)
| PressClear (wStop : fetched StopReply) (wDelete : fetched unit)
| PressLogout (wStop : fetched StopReply) (wDelete : fetched unit)
| RecognitionResult (event : ResultEvent) (w : fetched StatsReply)
| RecognitionError (code : jsstring)
| RecognitionEnd
| TimeoutFires (id : positive) (failure : option jsstring)
| IntervalFires (id : positive) (w : fetched StatsReply)
| DataAvailable (data : Blob) (w : fetched StatsReply).

Definition step (e : Event) (s : Store) : Store :=
  match e with
  | PressToggle wStart wStop => run (toggleRecording (state s) wStart wStop) s
  | PressClear wStop wDelete => run (clearTranscript (state s) wStop wDelete) s
  | PressLogout wStop wDelete => run (handleLogout (state s) wStop wDelete) s
  | RecognitionResult event w =>
      match recognitionRef (refs s) with
      | Some r => run (onresult r event w) s
      | None => s
      end
  | RecognitionError code =>
      match recognitionRef (refs s) with
      | Some _ => run (onerror code) s
      | None => s
      end
  | RecognitionEnd =>
      match recognitionRef (refs s) with
      | Some r => run (onend r) s
      | None => s
      end
  | TimeoutFires id failure => run (fireTimeout id failure) s
  | IntervalFires id w => run (fireInterval id w) s
  | DataAvailable data w =>
      match mediaRecorderRef (refs s) with
      | Some m => run (ondataavailable m data w) s
      | None => s
      end
  end.

(** The store after the events, from the freshly mounted component. *)
Definition after (events : list Event) : Store :=
  fold_left (fun s e => step e s) events initialStore.

Definition isPostAudio (r : Request) : bool :=
  match r with PostAudio _ _ _ => true | _ => false end.

(** An answer of the backend to a forwarded segment that carries new live
    stats. *)
Definition statsAnswer : fetched StatsReply :=
  Responded 200 (inr {| l_success := true;
                        l_live_stats := Some {[ js "fluency" := 7%Z ]} |}).

(** The user presses Start on the fresh component, everything goes well,
    and the recognition then commits the final segments [segments], one
    event each. *)
Definition committing (segments : list string) : list Event :=
  PressToggle (allGoesWell "s1") (Rejected [])
  :: map (fun t => RecognitionResult (final t) statsAnswer) segments.

(** The text of the final results among the new results of an event, as
    [onresult] accumulates it in [final]. *)
Definition finalText (event : ResultEvent) : jsstring :=
  snd (fst (scanResults event)).

(** ** Sign-up and login *)

Inductive AuthMode := LoginMode | SignupMode.

(** [user], [authMode], [credentials] and [error] of the component, and
    the item ["users"] of [localStorage]: absent, or the JSON text of an
    object with the passwords by email, which only [handleAuth] writes. *)
Record AuthStore := {
  user : option jsstring;
  authMode : AuthMode;
  email : jsstring;
  password : jsstring;
  authError : jsstring;
  users : option (gmap jsstring jsstring)
}.

(** The names every object inherits from [Object.prototype]. *)
Definition objectPrototypeNames : list jsstring :=
  [ js "constructor"; js "__defineGetter__"; js "__defineSetter__";
    js "hasOwnProperty"; js "__lookupGetter__"; js "__lookupSetter__";
    js "isPrototypeOf"; js "propertyIsEnumerable"; js "toString";
    js "valueOf"; js "__proto__"; js "toLocaleString" ].

(** What [storedUsers[key]] reads: an own property (a password), an
    inherited one (a function or the prototype, truthy and never a
    string), or [undefined]. *)
Inductive Property := Own (value : jsstring) | Inherited | Undefined.

Definition readProperty (storedUsers : gmap jsstring jsstring)
    (key : jsstring) : Property :=
  match storedUsers !! key with
  | Some value => Own value
  | None =>
      if bool_decide (key ∈ objectPrototypeNames) then Inherited
      else Undefined
  end.

Definition propertyTruthy (p : Property) : bool :=
  match p with
  | Own value => nonEmpty value
  | Inherited => true
  | Undefined => false
  end.

(** [p !== value] *)
Definition propertyDiffers (p : Property) (value : jsstring) : bool :=
  match p with
  | Own v => negb (strEq v value)
  | Inherited => true
  | Undefined => true
  end.

(** [JSON.parse(localStorage.getItem("users") || "{}")] *)
Definition storedUsersOf (a : AuthStore) : gmap jsstring jsstring :=
  match users a with Some m => m | None => ∅ end.

(** [handleAuth] of the speech-coach component and of [VoiceNotes.js]
    (the two are the same), run by the submit of the latest render. *)
Definition handleAuth (a : AuthStore) : AuthStore :=
  let emailTrimmed := trim (email a) in
  let passwordTrimmed := trim (password a) in
  if negb (nonEmpty emailTrimmed) || negb (nonEmpty passwordTrimmed) then
    {| user := user a; authMode := authMode a; email := email a;
       password := password a;
       authError := js "Email and password are required.";
       users := users a |}
  else
    let storedUsers := storedUsersOf a in
    match authMode a with
    | SignupMode =>
        if propertyTruthy (readProperty storedUsers emailTrimmed) then
          {| user := user a; authMode := authMode a; email := email a;
             password := password a;
             authError := js "User exists. Please login.";
             users := users a |}
        else
          {| user := Some emailTrimmed; authMode := authMode a;
             email := []; password := []; authError := [];
             users := Some (<[emailTrimmed := passwordTrimmed]> storedUsers) |}
    | LoginMode =>
        if negb (propertyTruthy (readProperty storedUsers emailTrimmed))
           || propertyDiffers (readProperty storedUsers emailTrimmed)
                passwordTrimmed then
          {| user := user a; authMode := authMode a; email := email a;
             password := password a;
             authError := js "Invalid email or password.";
             users := users a |}
        else
          {| user := Some emailTrimmed; authMode := authMode a;
             email := []; password := []; authError := [];
             users := users a |}
    end.

(** The user types the credentials and picks the mode. *)
Definition fillIn (mode : AuthMode) (e p : jsstring) (a : AuthStore)
  : AuthStore :=
  {| user := user a; authMode := mode; email := e; password := p;
     authError := authError a; users := users a |}.

(** ** The word count of the footer *)

(** [s.split(/\s+/)], from the piece [current] read so far; [skipping]
    says that the last character read was white space. *)
Fixpoint splitFrom (current : jsstring) (skipping : bool) (s : jsstring)
  : list jsstring :=
  match s with
  | [] => [current]
  | c :: r =>
      if isWhiteSpace c then
        if skipping then splitFrom current true r
        else current :: splitFrom [] true r
      else splitFrom (current ++ [c]) false r
  end.

Definition splitWhiteSpace (s : jsstring) : list jsstring :=
  splitFrom [] false s.

(** [finalTranscript.trim().split(/\s+/).filter(Boolean).length] *)
Definition wordCount (finalTranscript : jsstring) : nat :=
  length (filter (fun piece => nonEmpty piece = true)
            (splitWhiteSpace (trim finalTranscript))).

(** The recognition object [r] of the note-taking widget delivers the
    events one after the other. *)
Definition deliverNotes (r : Notes.Recognition) (events : list ResultEvent)
    (s : Notes.Store) : Notes.Store :=
  fold_left (fun s event => Notes.onresult r event s) events s.

(** The text of the interim results among the new results of an event, as
    [onresult] accumulates it in [interim]. *)
Definition interimText (event : ResultEvent) : jsstring :=
  fst (fst (scanResults event)).

(** The texts of the final results among the new results of an event, in
    the order of the event, each followed by one space: what an event
    commits, told from the event and not from the loop. *)
Definition committedText (event : ResultEvent) : jsstring :=
  concat (map (fun res => text res ++ js " ")
              (List.filter isFinal (drop (resultIndex event) (results event)))).

(** The texts of the new results of an event that are not final, in the
    order of the event. *)
Definition pendingText (event : ResultEvent) : jsstring :=
  concat (map text
              (List.filter (fun res => negb (isFinal res))
                 (drop (resultIndex event) (results event)))).

(** What holds of the store between two events (see [after_consistent]):
    the recognition object and the recorder the refs hold close over
    [isRecording = false]; no timeout is armed; an interval in the
    browser's table is the one [statsIntervalRef] holds, recording is
    then active and the interval polls the current session; recording is
    active only with a session id; no start or stop is in flight; no
    audio request has been made. *)
Definition consistent (s : Store) : Prop :=
  (forall r, recognitionRef (refs s) = Some r -> r_isRecording r = false)
  /\ (forall m, mediaRecorderRef (refs s) = Some m -> m_isRecording m = false)
  /\ timeouts s = ∅
  /\ (forall id sid, intervals s !! id = Some sid ->
        statsIntervalRef (refs s) = Some id
        /\ isRecording (state s) = true
        /\ sid = sessionId (state s))
  /\ (isRecording (state s) = true -> truthy (sessionId (state s)) = true)
  /\ isProcessingAudio (state s) = false
  /\ Forall (fun q => isPostAudio q = false) (requests s).

(** ** The colour of a progress bar *)

Inductive Level := Low | Medium | High.

(** [Low] below [Medium] below [High]. *)
Definition rank (l : Level) : nat :=
  match l with Low => 0 | Medium => 1 | High => 2 end.

(** [getProgressBarColor(value, metric)], for a value that is a finite
    number. *)
Definition getProgressBarColor (value : Q) (metric : jsstring) : Level :=
  if strEq metric (js "filler_words") then
    if Qle_bool value 2 then High
    else if Qle_bool value 5 then Medium
    else Low
  else
    if Qle_bool 80 value then High
    else if Qle_bool 60 value then Medium
    else Low.

(** * Properties *)

(** ** Strings *)

Lemma trimStart_blank (s : jsstring) :
  forallb isWhiteSpace s = true -> trimStart s = [].
Proof.
  induction s as [|c r IH]; simpl; [done|].
  intros [Hc Hr]%andb_prop. rewrite Hc. auto.
Qed.

Lemma trimStart_head (s : jsstring) c r :
  trimStart s = c :: r -> isWhiteSpace c = false.
Proof.
  induction s as [|d t IH]; simpl; [discriminate|].
  destruct (isWhiteSpace d) eqn:E; [exact IH|].
  intros [= <- _]. exact E.
Qed.

Lemma trimStart_nil_blank (s : jsstring) :
  trimStart s = [] -> forallb isWhiteSpace s = true.
Proof.
  induction s as [|c r IH]; simpl; [done|].
  destruct (isWhiteSpace c); [auto | discriminate].
Qed.

(** A string is blank (empty or white space only) exactly when [trim]
    leaves nothing of it. *)
Lemma trim_blank (s : jsstring) :
  forallb isWhiteSpace s = true <-> trim s = [].
Proof.
  unfold trim, trimEnd. split.
  - intros H. rewrite (trimStart_blank s H). reflexivity.
  - intros H. apply trimStart_nil_blank.
    destruct (trimStart s) as [|c r] eqn:E; [reflexivity|].
    exfalso.
    assert (Hw : forallb isWhiteSpace (rev (c :: r)) = true).
    { apply trimStart_nil_blank.
      apply (f_equal (@rev N)) in H. rewrite rev_involutive in H. exact H. }
    rewrite forallb_forall in Hw.
    specialize (Hw c). rewrite (trimStart_head s c r E) in Hw.
    assert (Hin : In c (rev (c :: r))).
    { apply in_rev. rewrite rev_involutive. left. reflexivity. }
    specialize (Hw Hin). discriminate.
Qed.

Lemma whenTruthy_truthy (v : option jsstring) :
  truthy v = false <-> whenTruthy v = None.
Proof.
  destruct v as [[|c r]|]; simpl; split; congruence.
Qed.

Lemma whenTruthy_Some (v : option jsstring) id :
  whenTruthy v = Some id <-> v = Some id /\ nonEmpty id = true.
Proof.
  destruct v as [[|c r]|]; simpl; split; intros H;
    try discriminate; try (injection H as <-; done);
    destruct H as [H1 H2]; try discriminate;
    injection H1 as <-; try discriminate; done.
Qed.

(** ** The monad *)

Ltac unfoldM :=
  unfold run, bind, ret, throw, tryCatch, tryFinally, when,
    setError, setIsRecording, setTranscript, setFinalTranscript,
    setActiveTab, setSessionId, setLiveStats, setSpeechAnalysis,
    setIsProcessingAudio, setState, setRefs, getRefs, emit,
    setInterval, clearInterval, setTimeout, dropTimeout in *.

(** ** The guards of the text-forwarding operation *)

(** C10.  A call of [processTextUpdate] that sees no session id, or sees
    recording not active, or is given a text that is empty or white space
    only, issues no request and leaves [lastProcessedText] as it is: it
    leaves the whole store as it is. *)
Theorem processTextUpdate_guarded
    (sessionId : option jsstring) (isRecording : bool) (newText : jsstring)
    (w : fetched StatsReply) (s : Store) :
  truthy sessionId = false \/ isRecording = false
    \/ forallb isWhiteSpace newText = true ->
  let s' := run (processTextUpdate sessionId isRecording newText w) s in
  requests s' = requests s
  /\ lastProcessedText (refs s') = lastProcessedText (refs s)
  /\ s' = s.
Proof.
  intros H s'.
  assert (E : s' = s); [|rewrite E; done].
  subst s'. unfold processTextUpdate.
  destruct (whenTruthy sessionId) as [id|] eqn:Hid; [|reflexivity].
  destruct H as [H | [-> | H]].
  - apply whenTruthy_truthy in H. congruence.
  - reflexivity.
  - apply trim_blank in H. rewrite H. simpl.
    destruct isRecording; reflexivity.
Qed.

Lemma processTextUpdate_guarded_witness :
  (truthy (Some (js "s1")) = false \/ true = false
     \/ forallb isWhiteSpace (js "  ") = true)
  /\ run (processTextUpdate (Some (js "s1")) true (js "  ") (Rejected []))
         started = started.
Proof.
  split.
  - right. right. reflexivity.
  - apply (processTextUpdate_guarded (Some (js "s1")) true (js "  ")
             (Rejected []) started).
    right. right. reflexivity.
Defined.

(** ** Starting twice *)

(** C3.  When the render [startRecording] closes over has recording
    active, or a start or stop in flight ([isProcessingAudio]), the call
    does nothing: the store is left as it is, so no request is issued, no
    second session is created and no state variable changes. *)
Theorem startRecording_noop_when_busy (view : State) (w : StartWorld)
    (s : Store) :
  isRecording view = true \/ isProcessingAudio view = true ->
  let s' := run (startRecording view w) s in
  s' = s /\ requests s' = requests s /\ state s' = state s.
Proof.
  intros H s'.
  assert (E : s' = s); [|rewrite E; done].
  subst s'. unfold startRecording.
  destruct H as [-> | ->]; [rewrite orb_true_r|]; reflexivity.
Qed.

Lemma startRecording_noop_when_busy_witness :
  (isRecording (state started) = true
   \/ isProcessingAudio (state started) = true)
  /\ run (startRecording (state started) (allGoesWell "s2")) started = started.
Proof.
  split.
  - left. reflexivity.
  - apply (startRecording_noop_when_busy (state started) (allGoesWell "s2")
             started).
    left. reflexivity.
Defined.

(** ** Helpers on the log *)

Lemma app_singleton_neq {A} (l : list A) (x : A) : l ++ [x] <> l.
Proof.
  intros H. apply (f_equal length) in H. rewrite length_app in H.
  simpl in H. lia.
Qed.

Lemma requests_emit_fetch (s : Store) (r : Request) st rf iv tm nt :
  requests {| state := st; refs := rf; intervals := iv; timeouts := tm;
              nextTimer := nt; log := log s ++ [Fetch r] |}
  = requests s ++ [r].
Proof. unfold requests. simpl. rewrite omap_app. reflexivity. Qed.

(** ** The deduplicator *)

(** What one call of [processTextUpdate] does once its guards are
    passed. *)
Lemma processTextUpdate_passed (sessionId : option jsstring) (id : jsstring)
    (newText : jsstring) (w : fetched StatsReply) (s : Store) :
  whenTruthy sessionId = Some id ->
  trim newText <> [] ->
  let s' := run (processTextUpdate sessionId true newText w) s in
  (newText = lastProcessedText (refs s) -> s' = s)
  /\ (newText <> lastProcessedText (refs s) ->
      requests s' = requests s ++ [PostAudio id NoAudio (trim newText)]
      /\ log s' = log s ++ [Fetch (PostAudio id NoAudio (trim newText))]
      /\ lastProcessedText (refs s') = newText).
Proof.
  intros Hid Hne s'. subst s'. unfold processTextUpdate. rewrite Hid.
  destruct (trim newText) as [|c r] eqn:Ht; [done|]. simpl.
  unfoldM. simpl. unfold strEq.
  split; intros Hl.
  - rewrite bool_decide_eq_true_2 by done. reflexivity.
  - rewrite bool_decide_eq_false_2 by done. simpl.
    destruct w as [m | status [m | data]]; simpl.
    + rewrite requests_emit_fetch. done.
    + destruct (ok status); simpl; rewrite requests_emit_fetch; done.
    + destruct (ok status); simpl; [|rewrite requests_emit_fetch; done].
      destruct (l_live_stats data); simpl; [destruct (l_success data)|];
        simpl; rewrite requests_emit_fetch; done.
Qed.

(** The comparison with [lastProcessedText] itself is sound.  A call of
    [processTextUpdate] whose closure holds a session id and recording
    active, on a segment that is not blank, forwards the segment if and
    only if it differs from [lastProcessedText]; when it forwards, it
    issues one request and sets [lastProcessedText] to the segment, and
    otherwise it changes nothing, so the same segment again makes no
    second request.  No call of the running component has such a
    closure. *)
Lemma processTextUpdate_dedup (sessionId : option jsstring) (id : jsstring)
    (segment : jsstring) (w w' : fetched StatsReply) (s : Store) :
  whenTruthy sessionId = Some id ->
  trim segment <> [] ->
  let once := run (processTextUpdate sessionId true segment w) s in
  let twice := run (processTextUpdate sessionId true segment w') once in
  forwardsIffNew sessionId true segment w s
  /\ (segment <> lastProcessedText (refs s) ->
      requests once = requests s ++ [PostAudio id NoAudio (trim segment)]
      /\ lastProcessedText (refs once) = segment)
  /\ (segment = lastProcessedText (refs s) -> once = s)
  /\ requests twice = requests once
  /\ (segment <> lastProcessedText (refs s) ->
      requests twice = requests s ++ [PostAudio id NoAudio (trim segment)]).
Proof.
  intros Hid Hne once twice.
  destruct (processTextUpdate_passed sessionId id segment w s Hid Hne)
    as [Hsame Hnew].
  change (run (processTextUpdate sessionId true segment w) s) with once
    in Hsame, Hnew.
  assert (Hlast : lastProcessedText (refs once) = segment).
  { destruct (decide (segment = lastProcessedText (refs s))) as [E|E].
    - rewrite (Hsame E). symmetry. exact E.
    - apply Hnew, E. }
  assert (Htwice : twice = once).
  { apply (processTextUpdate_passed sessionId id segment w' once Hid Hne).
    symmetry. exact Hlast. }
  unfold forwardsIffNew.
  change (run (processTextUpdate sessionId true segment w) s) with once.
  repeat split.
  - intros Hreq. intros E. apply Hreq. rewrite (Hsame E). reflexivity.
  - intros E. destruct (Hnew E) as [Hr _]. rewrite Hr.
    apply app_singleton_neq.
  - apply Hnew. assumption.
  - apply Hnew. assumption.
  - exact Hsame.
  - rewrite Htwice. reflexivity.
  - intros E. rewrite Htwice. apply Hnew, E.
Qed.

(** C2.  In the running component a committed final segment is never
    forwarded.  The user presses Start on the fresh component and
    everything goes well: recording is active under session "s1", and
    nothing has been forwarded yet.  The recognition then commits the
    final segment "hello": it reaches [finalTranscript], and yet no
    request is made and [lastProcessedText] stays empty, although the
    segment differs from the last forwarded one.  Committed twice in a
    row, it makes no analysis call at all, where one is due; and a second
    segment "world" fares no better.  The recognition object the ref
    holds closes over [isRecording = false] (and over no session id), the
    values of the render that started the recording, so the guard of
    [processTextUpdate] returns before the comparison. *)
Theorem committed_segments_are_not_forwarded :
  let once := after (committing ["hello"]) in
  let twice := after (committing ["hello"; "hello"]) in
  let other := after (committing ["hello"; "world"]) in
  after (committing []) = started
  /\ isRecording (state started) = true
  /\ sessionId (state started) = Some (js "s1")
  /\ lastProcessedText (refs started) = []
  /\ recognitionRef (refs started)
     = Some {| r_finalTranscript := []; r_isRecording := false;
               r_sessionId := None |}
  /\ finalTranscript (state once) = js "hello "
  /\ requests once = requests started
  /\ lastProcessedText (refs once) = []
  /\ finalTranscript (state twice) = js "hello hello "
  /\ requests twice = [CreateSession; StartSession (js "s1")]
  /\ lastProcessedText (refs twice) = []
  /\ finalTranscript (state other) = js "hello world "
  /\ requests other = [CreateSession; StartSession (js "s1")]
  /\ lastProcessedText (refs other) = [].
Proof. vm_compute. repeat split. Qed.

(** ** Live stats: merge, and the poller *)

(** [{ ...prev, ...live_stats }] read at one property. *)
Lemma spread_lookup (prev live_stats : stats) (metric : jsstring) :
  spread prev live_stats !! metric
  = match live_stats !! metric with
    | Some v => Some v
    | None => prev !! metric
    end.
Proof.
  unfold spread. rewrite lookup_union.
  destruct (live_stats !! metric), (prev !! metric); reflexivity.
Qed.

(** C9.  A successful answer ([ok] status, [success] set, [live_stats]
    present) to the stats poll, to an audio chunk or to a forwarded text
    updates [liveStats] field by field: a metric named in [live_stats]
    takes its value there, every other metric keeps the value it had. *)
Theorem liveStats_merged_fieldwise (sessionId : option jsstring)
    (status : N) (live_stats : stats) (chunk : Blob) (newText : jsstring)
    (metric : jsstring) (s : Store) :
  truthy sessionId = true ->
  ok status = true ->
  let w := Responded status
             (inr {| l_success := true; l_live_stats := Some live_stats |}) in
  let merged := match live_stats !! metric with
                | Some v => Some v
                | None => liveStats (state s) !! metric
                end in
  liveStats (state (run (statsIntervalCallback sessionId w) s)) !! metric
    = merged
  /\ liveStats (state (run (processAudioChunk sessionId true chunk w) s))
       !! metric = merged
  /\ (trim newText <> [] -> newText <> lastProcessedText (refs s) ->
      liveStats (state (run (processTextUpdate sessionId true newText w) s))
        !! metric = merged).
Proof.
  intros Hid Hok w merged.
  destruct (whenTruthy sessionId) as [id|] eqn:E;
    [|apply whenTruthy_truthy in E; congruence].
  subst w merged.
  unfold statsIntervalCallback, processAudioChunk, processTextUpdate,
    fetchJson.
  rewrite E. unfoldM. rewrite !Hok. simpl.
  repeat split; try apply spread_lookup.
  intros Hne Hnew. destruct (trim newText) eqn:Ht; [done|]. simpl.
  unfold strEq. rewrite bool_decide_eq_false_2 by done. simpl.
  apply spread_lookup.
Qed.

Lemma liveStats_merged_fieldwise_witness :
  truthy (Some (js "s1")) = true
  /\ ok 200 = true
  /\ liveStats (state (run (statsIntervalCallback (Some (js "s1"))
        (Responded 200 (inr {| l_success := true;
           l_live_stats := Some {[ js "fluency" := 70%Z ]} |}))) started))
       !! js "volume"
     = match ({[ js "fluency" := 70%Z ]} : stats) !! js "volume" with
       | Some v => Some v
       | None => liveStats (state started) !! js "volume"
       end.
Proof.
  split; [reflexivity|]. split; [reflexivity|].
  refine (proj1 (liveStats_merged_fieldwise (Some (js "s1")) 200
            {[ js "fluency" := 70%Z ]} [] [] (js "volume") started _ _));
    reflexivity.
Defined.

(** A tick that fails changes nothing but the log, which gains the
    request the tick made (if the interval is in the table and its
    session id is truthy). *)
Lemma fireInterval_failed (id : positive) (w : fetched StatsReply)
    (s : Store) :
  tickFails w = true ->
  let s' := run (fireInterval id w) s in
  state s' = state s /\ refs s' = refs s /\ intervals s' = intervals s
  /\ timeouts s' = timeouts s /\ nextTimer s' = nextTimer s
  /\ log s' = log s ++ match intervals s !! id ≫= whenTruthy with
                       | Some sid => [Fetch (GetStats sid)]
                       | None => []
                       end.
Proof.
  intros Hw s'. subst s'. unfold fireInterval, run.
  destruct (intervals s !! id) as [cur|] eqn:Ei; simpl;
    [|rewrite app_nil_r; done].
  unfold statsIntervalCallback.
  destruct (whenTruthy cur) as [sid|] eqn:Ec; simpl;
    [|rewrite app_nil_r; done].
  unfoldM.
  destruct w as [m | status [m | data]]; simpl in *; try done.
  - destruct (ok status); simpl; done.
  - destruct (ok status); simpl in *; [|done].
    destruct (l_live_stats data); simpl in *;
      [destruct (l_success data); simpl in *; done | done].
Qed.

(** C7.  Let interval [id] be in the browser's table, its callback
    closing over the session id [sid].  Whatever number of ticks fail in a
    row, each of them still makes its request, [liveStats] (and the whole
    state) is as before, and the interval is still in the table with the
    ref still holding what it held; once [stopStatsPolling] has run on the
    interval the ref holds, a tick does nothing any more. *)
Theorem failed_ticks_leave_stats_and_poller (id : positive) (sid : jsstring)
    (cur : option jsstring) (ws : list (fetched StatsReply)) (s : Store) :
  intervals s !! id = Some cur ->
  whenTruthy cur = Some sid ->
  Forall (fun w => tickFails w = true) ws ->
  let s' := fireAll id ws s in
  liveStats (state s') = liveStats (state s)
  /\ state s' = state s
  /\ intervals s' = intervals s
  /\ statsIntervalRef (refs s') = statsIntervalRef (refs s)
  /\ log s' = log s ++ replicate (length ws) (Fetch (GetStats sid))
  /\ (statsIntervalRef (refs s) = Some id ->
      forall w, run (fireInterval id w) (run stopStatsPolling s')
                = run stopStatsPolling s').
Proof.
  intros Hi Hc Hws. revert s Hi.
  induction Hws as [|w ws Hw _ IH]; intros s Hi s'.
  - subst s'. simpl. rewrite app_nil_r. repeat split.
    intros Hr w. unfold stopStatsPolling, fireInterval. unfoldM. simpl.
    rewrite Hr. simpl. rewrite lookup_delete_eq. reflexivity.
  - subst s'. simpl.
    destruct (fireInterval_failed id w s Hw)
      as (Hst & Hrf & Hiv & _ & _ & Hlog).
    rewrite Hi in Hlog. simpl in Hlog. rewrite Hc in Hlog.
    set (s1 := run (fireInterval id w) s) in *.
    assert (Hi1 : intervals s1 !! id = Some cur) by (rewrite Hiv; exact Hi).
    destruct (IH s1 Hi1) as (H1 & H2 & H3 & H4 & H5 & H6).
    rewrite H1, H2, H3, H4, H5, Hst, Hrf, Hiv, Hlog.
    rewrite <- app_assoc. repeat split.
    intros Hr. apply H6. rewrite Hrf. exact Hr.
Qed.

Lemma failed_ticks_leave_stats_and_poller_witness :
  intervals started !! 1%positive = Some (Some (js "s1"))
  /\ whenTruthy (Some (js "s1")) = Some (js "s1")
  /\ Forall (fun w => tickFails w = true)
       [Rejected (js "Failed to fetch"); Responded 500 (inl [])]
  /\ liveStats (state (fireAll 1 [Rejected (js "Failed to fetch");
                                  Responded 500 (inl [])] started))
     = liveStats (state started).
Proof.
  assert (H : Forall (fun w : fetched StatsReply => tickFails w = true)
                [Rejected (js "Failed to fetch"); Responded 500 (inl [])]).
  { repeat constructor. }
  split; [reflexivity|]. split; [reflexivity|]. split; [exact H|].
  refine (proj1 (failed_ticks_leave_stats_and_poller 1 (js "s1")
            (Some (js "s1")) _ started _ _ H)); reflexivity.
Defined.

(** ** The transcript *)

(** C1, at the input where the code departs from it.  After Start on the
    fresh component, the interim event "hel" followed by the final event
    "hello" leaves [finalTranscript] at "hello " (the text and one space),
    as the claim says, but the transcript on display is "helhello ": the
    final branch of [onresult] appends to the displayed transcript, which
    still holds the interim text, so it is not [finalTranscript] followed
    by the (empty) interim text. *)
Theorem final_after_interim_repeats_interim :
  let r := {| r_finalTranscript := []; r_isRecording := false;
              r_sessionId := None |} in
  let s := deliver r (Rejected []) [interim "hel"; final "hello"] started in
  recognitionRef (refs started) = Some r
  /\ finalTranscript (state s) = js "hello "
  /\ transcript (state s) = js "helhello "
  /\ transcript (state s) <> finalTranscript (state s) ++ [].
Proof. vm_compute. repeat split; discriminate. Qed.

(** ** Restart of the recognition *)

(** C8, at the input where the code departs from it.  After Start on the
    fresh component the mode is Recording, and the recognition object in
    use closes over [isRecording = false]; when the recognition ends, its
    [onend] arms no timeout and logs nothing: no restart is attempted. *)
Theorem onend_after_start_arms_no_restart :
  let r := {| r_finalTranscript := []; r_isRecording := false;
              r_sessionId := None |} in
  isRecording (state started) = true
  /\ recognitionRef (refs started) = Some r
  /\ timeouts (run (onend r) started) = ∅
  /\ log (run (onend r) started) = log started
  /\ run (onend r) started = started.
Proof. vm_compute. repeat split. Qed.

(** ** Stop and clear *)

(** The effects of the teardown of [stopRecording], as the refs call for
    them: the interval, the recognition, the recorder, the audio context. *)
Lemma stopRecording_runs (view : State) (id : jsstring)
    (w : fetched StopReply) (s : Store) :
  whenTruthy (sessionId view) = Some id ->
  isRecording view = true ->
  let s' := run (stopRecording view w) s in
  log s' =
    log s
    ++ match statsIntervalRef (refs s) with
       | Some timer => [ClearInterval timer]
       | None => []
       end
    ++ match recognitionRef (refs s) with
       | Some _ => [RecognitionStop]
       | None => []
       end
    ++ match mediaRecorderRef (refs s) with
       | Some {| m_state := Capturing |} => [RecorderStop]
       | _ => []
       end
    ++ match audioContextRef (refs s) with
       | Some _ => [AudioContextClose]
       | None => []
       end
    ++ [Fetch (StopSession id)]
  /\ isRecording (state s') = false
  /\ isProcessingAudio (state s') = false
  /\ recognitionRef (refs s') = None
  /\ audioContextRef (refs s') = None
  /\ statsIntervalRef (refs s') = None
  /\ sessionId (state s') = sessionId (state s)
  /\ lastProcessedText (refs s') = lastProcessedText (refs s)
  /\ transcript (state s') = transcript (state s)
  /\ finalTranscript (state s') = finalTranscript (state s)
  /\ liveStats (state s') = liveStats (state s).
Proof.
  intros Hid Hrec s'. subst s'. unfold stopRecording, stopStatsPolling,
    fetchJson.
  rewrite Hid, Hrec. destruct s as [st [rr ac mr ch si lp] iv tm nt lg].
  unfoldM. simpl.
  destruct si as [timer|], rr as [r|], mr as [[[] ms mi]|], ac as [[]|];
    simpl;
    (destruct w as [m | status [m | [su [an|] er]]]; simpl;
     [ | destruct (ok status); simpl ..];
     try (destruct su; simpl);
     rewrite <- ?app_assoc; simpl; repeat split; reflexivity).
Qed.
(** A handler that returns leaves its result in the store alone. *)
Lemma returns_run (m : M unit) (s : Store) :
  fst (m s) = Return tt -> m s = (Return tt, run m s).
Proof. unfold run. destruct (m s) as [o s']. simpl. congruence. Qed.

Lemma bind_returns {B} (m : M unit) (k : unit -> M B) (s : Store) :
  fst (m s) = Return tt -> bind m k s = k tt (run m s).
Proof. unfold bind, run. destruct (m s) as [[[]|e] s']; simpl; congruence. Qed.

(** [try ... catch ... finally] returns when its handler does. *)
Lemma tryFinally_tryCatch_returns (body : M unit)
    (handler : jsstring -> M unit) (cleanup : M unit) (s : Store) :
  (forall e s1, fst (handler e s1) = Return tt) ->
  fst (tryFinally (tryCatch body handler) cleanup s) = Return tt.
Proof.
  intros H. unfold tryFinally, tryCatch.
  destruct (body s) as [[[]|e] s1]; simpl; [reflexivity|].
  specialize (H e s1). destruct (handler e s1). exact H.
Qed.

(** [stopRecording] catches what its body throws. *)
Lemma stopRecording_returns (view : State) (w : fetched StopReply)
    (s : Store) :
  stopRecording view w s = (Return tt, run (stopRecording view w) s).
Proof.
  apply returns_run. unfold stopRecording.
  destruct (whenTruthy (sessionId view)); [|reflexivity].
  destruct (isRecording view); [|reflexivity].
  unfold negb. unfold bind at 1.
  unfold setIsProcessingAudio at 1. unfold setState at 1. cbv beta iota.
  apply tryFinally_tryCatch_returns. reflexivity.
Qed.




(** ** Failure while starting *)

(** The [catch] block of [startRecording]: what it logs and leaves. *)
Lemma startRecordingCatch_runs (e : jsstring) (s : Store) :
  let s' := run (startRecordingCatch e) s in
  startRecordingCatch e s = (Return tt, s')
  /\ log s' =
       log s
       ++ match recognitionRef (refs s) with
          | Some _ => [RecognitionStop]
          | None => []
          end
       ++ match mediaRecorderRef (refs s) with
          | Some {| m_state := Capturing |} => [RecorderStop]
          | _ => []
          end
       ++ match audioContextRef (refs s) with
          | Some _ => [AudioContextClose]
          | None => []
          end
  /\ error (state s') = js "Failed to start recording: " ++ e
  /\ isRecording (state s') = false
  /\ isProcessingAudio (state s') = isProcessingAudio (state s)
  /\ sessionId (state s') = sessionId (state s)
  /\ audioContextRef (refs s') = None.
Proof.
  destruct s as [st [rr ac mr ch si lp] iv tm nt lg].
  unfold startRecordingCatch. unfoldM. simpl.
  destruct rr as [r|], mr as [[[] ms mi]|], ac as [[]|]; simpl;
    rewrite <- ?app_assoc; simpl; rewrite ?app_nil_r; repeat split.
Qed.

(** Closes one throwing path of [startRecordingBody]. *)
Ltac finish_throw :=
  let H := fresh in
  intros H;
  first
    [ discriminate H
    | solve [inversion H; subst; simpl; rewrite <- ?app_assoc; simpl;
      eexists; split; [reflexivity|];
      repeat split; try reflexivity;
      try (unfold not; intros; rewrite ?elem_of_cons, ?elem_of_nil in *;
           try match goal with
               | H : is_Some None |- _ => destruct H; discriminate
               end;
           intuition (try discriminate; eauto))] ].

(** Walks [startRecordingBody] from the audio set-up on. *)
Ltac audio_on wa ws wn wr wm rf :=
  let m := fresh "m" in
  let status := fresh "status" in
  let su := fresh "su" in
  let er := fresh "er" in
  destruct wa as [m|m|m|]; simpl; try finish_throw;
  destruct ws as [m | status [m | [su er]]]; simpl; try finish_throw;
  (destruct (ok status); simpl; try finish_throw);
  try (destruct su; simpl; try finish_throw);
  destruct wn as [m|]; simpl; try finish_throw;
  destruct wr as [m|]; simpl; try finish_throw;
  destruct wm as [m|]; simpl; try finish_throw;
  destruct (statsIntervalRef rf); simpl; try finish_throw.

(** What the [try] block of [startRecording] has done by the time it
    throws. *)
Lemma startRecordingBody_throws (view : State) (w : StartWorld)
    (s s2 : Store) (e : jsstring) :
  startRecordingBody view w s = (Throw e, s2) ->
  exists body,
    log s2 = log s ++ body
    /\ (RecognitionNew ∈ body -> is_Some (recognitionRef (refs s2)))
    /\ (RecognitionStart ∈ body -> is_Some (recognitionRef (refs s2)))
    /\ (AudioContextNew ∈ body -> is_Some (audioContextRef (refs s2)))
    /\ (forall ms, RecorderStart ms ∉ body)
    /\ (forall id, Fetch (DeleteSession id) ∉ body)
    /\ (is_Some (whenTruthy (sessionId view)) -> Fetch CreateSession ∉ body)
    /\ startFailure view w = Some e
    /\ intervals s2 = intervals s
    /\ isProcessingAudio (state s2) = isProcessingAudio (state s)
    /\ sessionId (state s2) =
         match whenTruthy (sessionId view) with
         | Some _ => sessionId (state s)
         | None =>
             match createdId (w_create w) with
             | Some v => v
             | None => sessionId (state s)
             end
         end.
Proof.
  destruct s as [st rf iv tm nt lg].
  destruct w as [wc wa ws wn wr wm wmemo].
  unfold startFailure.
  unfold startRecordingBody, createVoiceSession, initAudioProcessing,
    fetchJson, initSpeechRecognition, startStatsPolling, createdId.
  unfoldM. simpl.
  destruct (whenTruthy (sessionId view)) as [id|] eqn:Hid; simpl.
  - audio_on wa ws wn wr wm rf.
  - destruct wc as [m | status [m | [su sid er]]]; simpl; try finish_throw;
      (destruct (ok status); simpl; try finish_throw);
      try (destruct su; simpl; try finish_throw);
      try (destruct (whenTruthy sid); simpl; try finish_throw);
      audio_on wa ws wn wr wm rf.
Qed.

(** Conversely, each failing step makes the [try] block throw its
    message, from any store: a failed creation, a failed audio set-up, a
    failed start request, and a recognition or a recorder that does not
    start. *)
Lemma startFailure_throws (view : State) (w : StartWorld) (s : Store)
    (e : jsstring) :
  startFailure view w = Some e ->
  fst (startRecordingBody view w s) = Throw e.
Proof.
  destruct s as [st rf iv tm nt lg].
  destruct w as [wc wa ws wn wr wm wmemo].
  unfold startFailure.
  unfold startRecordingBody, createVoiceSession, initAudioProcessing,
    fetchJson, initSpeechRecognition, startStatsPolling, createdId.
  unfoldM. simpl.
  destruct (whenTruthy (sessionId view)) as [id|] eqn:Hid; simpl.
  - destruct wa as [m|m|m|]; simpl; try congruence;
    destruct ws as [m | status [m | [su er]]]; simpl; try congruence;
    (destruct (ok status); simpl; try congruence);
    try (destruct su; simpl; try congruence);
    destruct wn as [m|]; simpl; try congruence;
    destruct wr as [m|]; simpl; try congruence;
    destruct wm as [m|]; simpl; try congruence.
  - destruct wc as [m | status [m | [su sid er]]]; simpl; try congruence;
      (destruct (ok status); simpl; try congruence);
      try (destruct su; simpl; try congruence);
      try (destruct (whenTruthy sid); simpl; try congruence);
    destruct wa as [m|m|m|]; simpl; try congruence;
    destruct ws as [m | status' [m | [su' er']]]; simpl; try congruence;
    (destruct (ok status'); simpl; try congruence);
    try (destruct su'; simpl; try congruence);
    destruct wn as [m|]; simpl; try congruence;
    destruct wr as [m|]; simpl; try congruence;
    destruct wm as [m|]; simpl; try congruence.
Qed.

(** [startRecording] past its guard. *)
Lemma startRecording_entered (view : State) (w : StartWorld) (s : Store) :
  isProcessingAudio view = false ->
  isRecording view = false ->
  startRecording view w s
  = tryFinally (tryCatch (startRecordingBody view w) startRecordingCatch)
      (setIsProcessingAudio false)
      (run (setIsProcessingAudio true;; setError []) s).
Proof.
  intros Hp Hr. unfold startRecording. rewrite Hp, Hr. reflexivity.
Qed.

(** C4.  Let [startRecording] pass its guard and its [try] block throw
    the error [e], at whichever step: the creation of the session, the
    audio set-up, the start request, or the start of the recognition or
    of the recorder.  Call [body] the effects of the block up to the
    throw and [rollback] the effects that follow them.  The rollback is
    exactly this, in this order: the recognition the ref holds at the
    throw is stopped, a recorder that is capturing is stopped, the audio
    context the ref holds is closed.  In particular a recognition that
    the block created or started is stopped and an audio context that it
    opened is closed; the recorder was not started by the block.  After
    the rollback the ref of the context is cleared, no poller has been
    started, the mode is Idle ([isRecording] and [isProcessingAudio] are
    false), and the error on display is "Failed to start recording: "
    followed by [e], the message of the failing step as [startFailure]
    tells it (for a failed creation or audio set-up that is the message
    [startRecording] itself throws, not the cause those functions
    caught).  No delete request is made, and the session id is the one
    held before, or the one the backend handed out if this run created
    the session. *)
Theorem startRecording_failure_rolls_back (view : State) (w : StartWorld)
    (s : Store) (e : jsstring) :
  isProcessingAudio view = false ->
  isRecording view = false ->
  let entered := run (setIsProcessingAudio true;; setError []) s in
  fst (startRecordingBody view w entered) = Throw e ->
  let thrown := snd (startRecordingBody view w entered) in
  let s' := run (startRecording view w) s in
  let body := drop (length (log s)) (log thrown) in
  let rollback := drop (length (log thrown)) (log s') in
  log s' = log s ++ body ++ rollback
  /\ log thrown = log s ++ body
  /\ rollback =
       match recognitionRef (refs thrown) with
       | Some _ => [RecognitionStop]
       | None => []
       end
       ++ match mediaRecorderRef (refs thrown) with
          | Some {| m_state := Capturing |} => [RecorderStop]
          | _ => []
          end
       ++ match audioContextRef (refs thrown) with
          | Some _ => [AudioContextClose]
          | None => []
          end
  /\ (RecognitionNew ∈ body -> RecognitionStop ∈ rollback)
  /\ (RecognitionStart ∈ body -> RecognitionStop ∈ rollback)
  /\ (AudioContextNew ∈ body -> AudioContextClose ∈ rollback)
  /\ (forall ms, RecorderStart ms ∉ body)
  /\ audioContextRef (refs s') = None
  /\ intervals s' = intervals s
  /\ isRecording (state s') = false
  /\ isProcessingAudio (state s') = false
  /\ error (state s') = js "Failed to start recording: " ++ e
  /\ startFailure view w = Some e
  /\ (forall id, Fetch (DeleteSession id) ∉ body ++ rollback)
  /\ sessionId (state s') =
       match whenTruthy (sessionId view) with
       | Some _ => sessionId (state s)
       | None =>
           match createdId (w_create w) with
           | Some v => v
           | None => sessionId (state s)
           end
       end.
Proof.
  intros Hp Hr entered Hthrow thrown s' body rollback.
  destruct (startRecordingBody view w entered) as [o s2] eqn:Eb.
  simpl in Hthrow. subst o. simpl in thrown. subst thrown.
  destruct (startRecordingBody_throws view w entered s2 e Eb)
    as (body' & Hlog & Hnew & Hrecog & Hctx & Hrecorder & Hdel & _ & Hfail
        & Hiv & _ & Hsid).
  destruct (startRecordingCatch_runs e s2)
    as (Hc & Hclog & Herr & Hrec & _ & Hcsid & Hcctx).
  set (s3 := run (startRecordingCatch e) s2) in *.
  assert (E : s' = run (setIsProcessingAudio false) s3).
  { subst s'. unfold run at 1.
    rewrite (startRecording_entered view w s Hp Hr).
    fold entered. unfold tryFinally, tryCatch. rewrite Eb, Hc.
    reflexivity. }
  assert (Hlog' : log s2 = log s ++ body').
  { exact Hlog. }
  assert (Hbody : body = body').
  { subst body. rewrite Hlog'. apply drop_app_length. }
  assert (Hs' : log s' = log s3).
  { rewrite E. reflexivity. }
  assert (Hroll : rollback =
       match recognitionRef (refs s2) with
       | Some _ => [RecognitionStop]
       | None => []
       end
       ++ match mediaRecorderRef (refs s2) with
          | Some {| m_state := Capturing |} => [RecorderStop]
          | _ => []
          end
       ++ match audioContextRef (refs s2) with
          | Some _ => [AudioContextClose]
          | None => []
          end).
  { subst rollback. rewrite Hs', Hclog. apply drop_app_length. }
  assert (Hiv' : intervals s' = intervals s).
  { rewrite E. etrans; [|exact Hiv].
    subst s3. clear. destruct s2 as [st [rr ac mr ch si lp] iv tm nt lg].
    unfold startRecordingCatch. unfoldM. simpl.
    destruct rr, mr as [[[] ? ?]|], ac; reflexivity. }
  clearbody body rollback. subst body rollback.
  split_and!.
  - rewrite Hs', Hclog, Hlog'. rewrite <- !app_assoc. reflexivity.
  - exact Hlog'.
  - reflexivity.
  - intros [r Hr']%Hnew.  rewrite Hr'. set_solver.
  - intros [r Hr']%Hrecog.  rewrite Hr'. set_solver.
  - intros [c Hc']%Hctx.  rewrite Hc'. set_solver.
  - exact Hrecorder.
  - rewrite E. exact Hcctx.
  - exact Hiv'.
  - rewrite E. exact Hrec.
  - rewrite E. reflexivity.
  - rewrite E. exact Herr.
  - exact Hfail.
  - intros id [Hin | Hin]%elem_of_app; [exact (Hdel id Hin)|].
    
    destruct (recognitionRef (refs s2)),
      (mediaRecorderRef (refs s2)) as [[[] ? ?]|],
      (audioContextRef (refs s2));
      simpl in Hin; rewrite ?elem_of_cons, ?elem_of_nil in Hin;
      intuition discriminate.
  - rewrite E. etrans; [exact Hcsid|]. exact Hsid.
Qed.

Lemma startRecording_failure_rolls_back_witness :
  let s' := run (startRecording initialState recorderRefuses) initialStore in
  isProcessingAudio initialState = false
  /\ isRecording initialState = false
  /\ fst (startRecordingBody initialState recorderRefuses
            (run (setIsProcessingAudio true;; setError []) initialStore))
     = Throw (js "The MediaRecorder could not be started")
  /\ log s' =
       [Fetch CreateSession; GetUserMedia; AudioContextNew; RecorderNew;
        Fetch (StartSession (js "s1")); RecognitionNew; RecognitionStart]
       ++ [RecognitionStop; AudioContextClose]
  /\ audioContextRef (refs s') = None
  /\ isRecording (state s') = false
  /\ isProcessingAudio (state s') = false
  /\ error (state s')
     = js "Failed to start recording: The MediaRecorder could not be started"
  /\ sessionId (state s') = Some (js "s1").
Proof.
  pose proof (startRecording_failure_rolls_back initialState recorderRefuses
                initialStore (js "The MediaRecorder could not be started")
                eq_refl eq_refl eq_refl)
    as (Hlog & Hbody & Hroll & _ & _ & _ & _ & Hctx & _ & Hrec & Hproc & Herr
        & _ & _ & Hsid).
  split; [reflexivity|]. split; [reflexivity|]. split; [reflexivity|].
  split; [exact Hlog|]. split; [exact Hctx|]. split; [exact Hrec|].
  split; [exact Hproc|]. split; [exact Herr|]. exact Hsid.
Defined.

(** * Further properties of the code *)

(** ** The transcript under recognition events *)

(** The loop of [onresult] only appends to its accumulators. *)
Lemma scanResult_fold (l : list SpeechResult) (i f n : jsstring) :
  fst (fst (fold_left scanResult l (i, f, n)))
    = i ++ fst (fst (fold_left scanResult l ([], [], [])))
  /\ snd (fst (fold_left scanResult l (i, f, n)))
    = f ++ snd (fst (fold_left scanResult l ([], [], []))).
Proof.
  revert i f n. induction l as [|res l IH]; intros i f n; simpl.
  - rewrite !app_nil_r. done.
  - destruct (isFinal res); simpl.
    + destruct (IH i (f ++ text res ++ js " ") (text res)) as [H1 H2].
      destruct (IH [] (text res ++ js " ") (text res)) as [H3 H4].
      split.
      * etrans; [exact H1|]. f_equal. symmetry. exact H3.
      * etrans; [exact H2|]. etrans; [symmetry; apply app_assoc|].
        f_equal. symmetry. exact H4.
    + destruct (IH (i ++ text res) f n) as [H1 H2].
      destruct (IH (text res) [] []) as [H3 H4].
      split.
      * etrans; [exact H1|]. etrans; [symmetry; apply app_assoc|].
        f_equal. symmetry. exact H3.
      * etrans; [exact H2|]. f_equal. symmetry. exact H4.
Qed.

Lemma interimEvent_finalText (event : ResultEvent) :
  interimEvent event -> finalText event = [].
Proof.
  unfold interimEvent, finalText, scanResults.
  generalize (drop (resultIndex event) (results event)). intros l H.
  induction H as [|res l Hres _ IH]; [reflexivity|].
  simpl. rewrite Hres. simpl.
  destruct (scanResult_fold l (text res) [] []) as [_ H2].
  etrans; [exact H2|exact IH].
Qed.

Lemma finalEvent_scan (T : jsstring) (event : ResultEvent) :
  finalEvent T event -> scanResults event = ([], T ++ js " ", T).
Proof. unfold finalEvent, scanResults. intros ->. reflexivity. Qed.

(** [processTextUpdate] touches [liveStats], [lastProcessedText] and the
    log, and nothing else. *)
Lemma processTextUpdate_frame (sessionId : option jsstring)
    (isRecording : bool) (newText : jsstring) (w : fetched StatsReply)
    (s : Store) :
  let s' := run (processTextUpdate sessionId isRecording newText w) s in
  withLiveStats (liveStats (state s)) (state s') = state s
  /\ withLastProcessedText (lastProcessedText (refs s)) (refs s') = refs s
  /\ intervals s' = intervals s /\ timeouts s' = timeouts s
  /\ nextTimer s' = nextTimer s
  /\ (isRecording = false -> s' = s).
Proof.
  destruct s as [[] [] iv tm nt lg].
  unfold processTextUpdate.
  destruct (whenTruthy sessionId); [|done].
  destruct isRecording; [|done]. simpl.
  destruct (nonEmpty (trim newText)); [|done]. simpl.
  unfoldM. simpl. unfold strEq. case_bool_decide; [done|]. simpl.
  destruct w as [m | status [m | [su [ls|]]]]; simpl; try done;
    destruct (ok status); simpl; try done.
  destruct su; done.
Qed.

(** Every recognition event of the speech-coach component appends the
    text of its final results to [finalTranscript]. *)
Lemma onresult_appends_final (r : Recognition) (event : ResultEvent)
    (w : fetched StatsReply) (s : Store) :
  finalTranscript (state (run (onresult r event w) s))
  = finalTranscript (state s) ++ finalText event.
Proof.
  unfold onresult, finalText.
  destruct (scanResults event) as [[i f] n]. simpl.
  destruct (nonEmpty f) eqn:Ef.
  - pose (s1 := {| state :=
                     withTranscript (transcript (state s) ++ f ++ i)
                       (withFinalTranscript (finalTranscript (state s) ++ f)
                          (state s));
                   refs := refs s; intervals := intervals s;
                   timeouts := timeouts s; nextTimer := nextTimer s;
                   log := log s |}).
    change (finalTranscript
              (state (run (when (nonEmpty (trim n))
                             (processTextUpdate (r_sessionId r)
                                (r_isRecording r) (trim n) w)) s1))
            = finalTranscript (state s1)).
    destruct (nonEmpty (trim n)); [|reflexivity]. simpl when.
    destruct (processTextUpdate_frame (r_sessionId r) (r_isRecording r)
                (trim n) w s1) as [H _].
    apply (f_equal finalTranscript) in H. exact H.
  - destruct f; [|discriminate]. rewrite app_nil_r. reflexivity.
Qed.

Lemma deliver_finalTranscript (r : Recognition) (w : fetched StatsReply)
    (events : list ResultEvent) (s : Store) :
  finalTranscript (state (deliver r w events s))
  = finalTranscript (state s) ++ concat (map finalText events).
Proof.
  revert s. induction events as [|event events IH]; intros s; simpl.
  - rewrite app_nil_r. reflexivity.
  - unfold deliver in *. simpl. rewrite IH, onresult_appends_final.
    rewrite <- app_assoc. reflexivity.
Qed.

(** The loop of [onresult] computes the texts of the event: in [final]
    the final results, each followed by one space, and in [interim] the
    others, both in the order of the event. *)
Lemma scanResults_texts (event : ResultEvent) :
  finalText event = committedText event
  /\ interimText event = pendingText event.
Proof.
  unfold finalText, interimText, committedText, pendingText, scanResults.
  generalize (drop (resultIndex event) (results event)). intros l.
  induction l as [|res l [IHf IHi]]; [done|].
  simpl. destruct (isFinal res); simpl.
  - destruct (scanResult_fold l [] (text res ++ js " ") (text res))
      as [H1 H2].
    split.
    + etrans; [exact H2|]. f_equal. exact IHf.
    + etrans; [exact H1|]. exact IHi.
  - destruct (scanResult_fold l (text res) [] []) as [H1 H2].
    split.
    + etrans; [exact H2|]. exact IHf.
    + etrans; [exact H1|]. f_equal. exact IHi.
Qed.

Lemma interimEvent_pendingText (event : ResultEvent) :
  interimEvent event ->
  pendingText event
  = concat (map text (drop (resultIndex event) (results event))).
Proof.
  unfold interimEvent, pendingText.
  generalize (drop (resultIndex event) (results event)). intros l H.
  induction H as [|res l Hres _ IH]; [reflexivity|].
  simpl. rewrite Hres. simpl. f_equal. exact IH.
Qed.

(** X1.  In the speech-coach component the final transcript only grows:
    across any run of recognition events, whatever recognition object
    delivers them and whatever the backend answers, [finalTranscript] is
    what it was, followed by the text of the final results of the events
    in order, each result followed by one space.  Nothing committed is
    lost or changed. *)
Theorem deliver_appends_finals (r : Recognition) (w : fetched StatsReply)
    (events : list ResultEvent) (s : Store) :
  finalTranscript (state (deliver r w events s))
  = finalTranscript (state s) ++ concat (map committedText events).
Proof.
  rewrite deliver_finalTranscript. f_equal. f_equal.
  apply map_ext. intros event. apply scanResults_texts.
Qed.

(** X2.  Interim events followed by a final event carrying [T] leave
    [finalTranscript] as it was before them, followed by [T] and one
    space (the part of the transcript property that the speech-coach
    component does keep). *)
Theorem interims_then_final_commit (r : Recognition) (w : fetched StatsReply)
    (interims : list ResultEvent) (event : ResultEvent) (T : jsstring)
    (s : Store) :
  Forall interimEvent interims ->
  finalEvent T event ->
  finalTranscript (state (deliver r w (interims ++ [event]) s))
  = finalTranscript (state s) ++ T ++ js " ".
Proof.
  intros Hi Hf. rewrite deliver_finalTranscript.
  rewrite map_app, concat_app. simpl.
  assert (E : concat (map finalText interims) = []).
  { induction Hi as [|e l He _ IH]; [reflexivity|].
    simpl. rewrite (interimEvent_finalText e He). exact IH. }
  rewrite E. unfold finalText. rewrite (finalEvent_scan T event Hf).
  simpl. rewrite app_nil_r. reflexivity.
Qed.

Lemma interims_then_final_commit_witness :
  Forall interimEvent [interim "hel"; interim "hell"]
  /\ finalEvent (js "hello") (final "hello")
  /\ finalTranscript
       (state (deliver {| r_finalTranscript := []; r_isRecording := false;
                          r_sessionId := None |} (Rejected [])
                 ([interim "hel"; interim "hell"] ++ [final "hello"])
                 started))
     = finalTranscript (state started) ++ js "hello" ++ js " ".
Proof.
  assert (H : Forall interimEvent [interim "hel"; interim "hell"]).
  { repeat constructor. }
  split; [exact H|]. split; [reflexivity|].
  exact (interims_then_final_commit _ (Rejected []) _ (final "hello")
           (js "hello") started H eq_refl).
Defined.

(** X3.  An interim event of the speech-coach component makes no request
    and changes nothing but the displayed transcript, which becomes the
    [finalTranscript] the recognition object closes over (the one of the
    render that started the recording, not the current one) followed by
    the interim text: the texts of the new results of the event, in
    order. *)
Theorem onresult_interim_shows_captured (r : Recognition)
    (event : ResultEvent) (w : fetched StatsReply) (s : Store) :
  interimEvent event ->
  let s' := run (onresult r event w) s in
  transcript (state s') = r_finalTranscript r ++ interimText event
  /\ withTranscript (transcript (state s)) (state s') = state s
  /\ refs s' = refs s /\ log s' = log s
  /\ interimText event
     = concat (map text (drop (resultIndex event) (results event))).
Proof.
  intros H s'. subst s'.
  split_and!; [..|etrans; [apply scanResults_texts|];
                   exact (interimEvent_pendingText event H)].
  all: unfold onresult, interimText.
  all: pose proof (interimEvent_finalText event H) as Hf.
  all: unfold finalText in Hf.
  all: destruct (scanResults event) as [[i f] n]; simpl in *; subst f; simpl.
  all: destruct s as [[] rf iv tm nt lg]; done.
Qed.

Lemma onresult_interim_shows_captured_witness :
  interimEvent (interim "wor")
  /\ transcript (state (run (onresult {| r_finalTranscript := [];
                                         r_isRecording := false;
                                         r_sessionId := None |}
                              (interim "wor") (Rejected []))
                          (deliver {| r_finalTranscript := [];
                                      r_isRecording := false;
                                      r_sessionId := None |} (Rejected [])
                             [final "hello"] started)))
     = [] ++ interimText (interim "wor").
Proof.
  assert (H : interimEvent (interim "wor")) by (repeat constructor).
  split; [exact H|].
  exact (proj1 (onresult_interim_shows_captured _ (interim "wor")
                  (Rejected []) _ H)).
Defined.

(** ** The note-taking widget *)

(** The loop of the widget's [onresult] computes what the loop of the
    speech-coach component computes, on top of its starting values. *)
Lemma notes_scan_fold (l : list SpeechResult) (i f i0 f0 n : jsstring) :
  fold_left Notes.scanResult l (i0 ++ i, f0 ++ f)
  = (i0 ++ fst (fst (fold_left scanResult l (i, f, n))),
     f0 ++ snd (fst (fold_left scanResult l (i, f, n)))).
Proof.
  revert i f n. induction l as [|res l IH]; intros i f n; simpl.
  - reflexivity.
  - destruct (isFinal res); simpl.
    + etrans; [|exact (IH i (f ++ text res ++ js " ") (text res))].
      f_equal. f_equal. symmetry. apply app_assoc.
    + etrans; [|exact (IH (i ++ text res) f n)].
      f_equal. f_equal. symmetry. apply app_assoc.
Qed.

(** What an event makes of the two transcripts of the widget. *)
Lemma notes_onresult_runs (r : Notes.Recognition)
    (event : ResultEvent) (s : Notes.Store) :
  let s' := Notes.onresult r event s in
  Notes.finalTranscript (Notes.state s')
    = Notes.r_finalTranscript r ++ finalText event
  /\ Notes.transcript (Notes.state s')
     = Notes.finalTranscript (Notes.state s') ++ interimText event.
Proof.
  unfold Notes.onresult, finalText, interimText, scanResults.
  pose proof (notes_scan_fold (drop (resultIndex event) (results event))
                [] [] [] (Notes.r_finalTranscript r) []) as H.
  destruct (fold_left Notes.scanResult
              (drop (resultIndex event) (results event))
              ([], Notes.r_finalTranscript r)) as [i f] eqn:E.
  assert (E' : (i, f) = fold_left Notes.scanResult
                          (drop (resultIndex event) (results event))
                          ([] ++ [], Notes.r_finalTranscript r ++ [])).
  { etrans; [symmetry; exact E|]. f_equal. f_equal. symmetry.
    apply app_nil_r. }
  pose proof (eq_trans E' H) as E2. injection E2 as -> ->. simpl. done.
Qed.

(** X4.  In the note-taking widget an event sets [finalTranscript] to
    the final transcript the recognition object closes over (the one of
    the render that created it) followed by the final text of the event,
    and the displayed transcript to that followed by the interim text;
    what the store held (text committed by earlier events) is not
    read. *)
Theorem notes_onresult_overwrites (r : Notes.Recognition)
    (event : ResultEvent) (s : Notes.Store) :
  let s' := Notes.onresult r event s in
  Notes.finalTranscript (Notes.state s')
    = Notes.r_finalTranscript r ++ finalText event
  /\ Notes.transcript (Notes.state s')
     = Notes.finalTranscript (Notes.state s') ++ interimText event.
Proof. apply notes_onresult_runs. Qed.

(** X5.  In the note-taking widget, interim events followed by a final
    event carrying [T] leave [finalTranscript] ending with [T] and one
    space, and the displayed transcript equal to it (the interim text is
    empty). *)
Theorem notes_interims_then_final (r : Notes.Recognition)
    (interims : list ResultEvent) (event : ResultEvent) (T : jsstring)
    (s : Notes.Store) :
  Forall interimEvent interims ->
  finalEvent T event ->
  let s' := deliverNotes r (interims ++ [event]) s in
  Notes.finalTranscript (Notes.state s')
    = Notes.r_finalTranscript r ++ T ++ js " "
  /\ Notes.transcript (Notes.state s') = Notes.finalTranscript (Notes.state s').
Proof.
  intros _ Hf s'. subst s'. unfold deliverNotes. rewrite fold_left_app.
  simpl.
  destruct (notes_onresult_runs r event
              (fold_left (fun s e => Notes.onresult r e s) interims s))
    as [H1 H2].
  rewrite H2, H1. unfold finalText, interimText.
  rewrite (finalEvent_scan T event Hf). simpl. rewrite app_nil_r. done.
Qed.

Lemma notes_interims_then_final_witness :
  Forall interimEvent [interim "hel"]
  /\ finalEvent (js "hello") (final "hello")
  /\ Notes.transcript
       (Notes.state (deliverNotes {| Notes.r_finalTranscript := [] |}
                       ([interim "hel"] ++ [final "hello"])
                       Notes.initialStore))
     = Notes.finalTranscript
         (Notes.state (deliverNotes {| Notes.r_finalTranscript := [] |}
                         ([interim "hel"] ++ [final "hello"])
                         Notes.initialStore)).
Proof.
  assert (H : Forall interimEvent [interim "hel"]) by (repeat constructor).
  split; [exact H|]. split; [reflexivity|].
  exact (proj2 (notes_interims_then_final {| Notes.r_finalTranscript := [] |}
                  [interim "hel"] (final "hello") (js "hello")
                  Notes.initialStore H eq_refl)).
Defined.


(** ** What a run of [startRecording] leaves *)

(** Closes one path of [startRecordingBody] that returns. *)
Ltac finish_return :=
  let H := fresh in
  lazymatch goal with
  | |- (Throw _, _) = _ -> _ => idtac
  | |- (Return _, _) = _ -> _ => idtac
  end;
  intros H;
  first
    [ discriminate H
    | solve [inversion H; subst; simpl; rewrite <- ?app_assoc; simpl;
             repeat match goal with
                    | H1 : whenTruthy _ = Some _ |- _ =>
                        apply whenTruthy_Some in H1; destruct H1
                    end;
             simpl in *; eexists; repeat split; eauto; congruence] ].

(** Walks [startRecordingBody] towards its return. *)
Ltac audio_return wa ws wn wr wm rf :=
  let m := fresh "m" in
  let status := fresh "status" in
  let su := fresh "su" in
  let er := fresh "er" in
  destruct wa as [m|m|m|]; simpl; try finish_return;
  destruct ws as [m | status [m | [su er]]]; simpl; try finish_return;
  (destruct (ok status); simpl; try finish_return);
  try (destruct su; simpl; try finish_return);
  destruct wn as [m|]; simpl; try finish_return;
  destruct wr as [m|]; simpl; try finish_return;
  destruct wm as [m|]; simpl; try finish_return;
  destruct (statsIntervalRef rf) eqn:?; simpl; try finish_return.

(** What the [try] block of [startRecording] leaves when it returns: the
    effects in their order, the refs, the timer and the state. *)
Lemma startRecordingBody_returns (view : State) (w : StartWorld)
    (s s2 : Store) :
  sessionId (state s) = sessionId view ->
  startRecordingBody view w s = (Return tt, s2) ->
  exists id,
    nonEmpty id = true
    /\ sessionId (state s2) = Some id
    /\ isRecording (state s2) = true
    /\ log s2 =
         log s
         ++ match whenTruthy (sessionId view) with
            | Some _ => []
            | None => [Fetch CreateSession]
            end
         ++ [GetUserMedia; AudioContextNew; RecorderNew;
             Fetch (StartSession id); RecognitionNew; RecognitionStart;
             RecorderStart 1000]
         ++ match statsIntervalRef (refs s) with
            | Some old => [ClearInterval old]
            | None => []
            end
         ++ [SetInterval (nextTimer s) 1000]
    /\ refs s2 =
         {| recognitionRef :=
              Some {| r_finalTranscript := finalTranscript view;
                      r_isRecording := isRecording view;
                      r_sessionId := w_memoSessionId w |};
            audioContextRef := Some tt;
            mediaRecorderRef :=
              Some {| m_state := Capturing; m_sessionId := sessionId view;
                      m_isRecording := isRecording view |};
            audioChunks := audioChunks (refs s);
            statsIntervalRef := Some (nextTimer s);
            lastProcessedText := [] |}
    /\ intervals s2 =
         <[nextTimer s := Some id]>
           match statsIntervalRef (refs s) with
           | Some old => delete old (intervals s)
           | None => intervals s
           end
    /\ timeouts s2 = timeouts s
    /\ isProcessingAudio (state s2) = isProcessingAudio (state s)
    /\ error (state s2) = error (state s)
    /\ transcript (state s2) = transcript (state s)
    /\ finalTranscript (state s2) = finalTranscript (state s)
    /\ liveStats (state s2) = liveStats (state s).
Proof.
  destruct s as [st rf iv tm nt lg].
  destruct w as [wc wa ws wn wr wm wmemo].
  unfold startRecordingBody, createVoiceSession, initAudioProcessing,
    fetchJson, initSpeechRecognition, startStatsPolling.
  unfoldM. simpl. intros Hsid.
  destruct (whenTruthy (sessionId view)) as [id|] eqn:Hid; simpl.
  - audio_return wa ws wn wr wm rf.
  - destruct wc as [m | status [m | [su sid er]]]; simpl; try finish_return;
      (destruct (ok status); simpl; try finish_return);
      try (destruct su; simpl; try finish_return);
      try (destruct (whenTruthy sid) eqn:?; simpl; try finish_return);
      audio_return wa ws wn wr wm rf.
Qed.

(** Closes one path of [startRecordingBody] that throws, for
    [startRecordingBody_throw_frame]. *)
Ltac finish_frame :=
  let H := fresh in
  lazymatch goal with
  | |- (Throw _, _) = _ -> _ => idtac
  | |- (Return _, _) = _ -> _ => idtac
  end;
  intros H;
  first
    [ discriminate H
    | solve [inversion H; subst; simpl; split_and!; try reflexivity;
             try (intros; simplify_eq; simpl; auto; fail);
             try (intros; unfold requests in *; simpl;
                  rewrite ?omap_app; simpl; rewrite ?Forall_app;
                  split_and?; try assumption; repeat constructor)] ].

(** Walks [startRecordingBody] from the audio set-up on. *)
Ltac audio_frame wa ws wn wr wm rf :=
  let m := fresh "m" in
  let status := fresh "status" in
  let su := fresh "su" in
  let er := fresh "er" in
  destruct wa as [m|m|m|]; simpl; try finish_frame;
  destruct ws as [m | status [m | [su er]]]; simpl; try finish_frame;
  (destruct (ok status); simpl; try finish_frame);
  try (destruct su; simpl; try finish_frame);
  destruct wn as [m|]; simpl; try finish_frame;
  destruct wr as [m|]; simpl; try finish_frame;
  destruct wm as [m|]; simpl; try finish_frame;
  destruct (statsIntervalRef rf); simpl; try finish_frame.

(** What the [try] block of [startRecording] leaves alone when it
    throws. *)
Lemma startRecordingBody_throw_frame (view : State) (w : StartWorld)
    (s s2 : Store) (e : jsstring) :
  startRecordingBody view w s = (Throw e, s2) ->
  intervals s2 = intervals s
  /\ timeouts s2 = timeouts s
  /\ nextTimer s2 = nextTimer s
  /\ statsIntervalRef (refs s2) = statsIntervalRef (refs s)
  /\ lastProcessedText (refs s2) = lastProcessedText (refs s)
  /\ isRecording (state s2) = isRecording (state s)
  /\ isProcessingAudio (state s2) = isProcessingAudio (state s)
  /\ transcript (state s2) = transcript (state s)
  /\ finalTranscript (state s2) = finalTranscript (state s)
  /\ liveStats (state s2) = liveStats (state s)
  /\ (forall r, recognitionRef (refs s2) = Some r ->
        recognitionRef (refs s) = Some r
        \/ r_isRecording r = isRecording view)
  /\ (forall m, mediaRecorderRef (refs s2) = Some m ->
        mediaRecorderRef (refs s) = Some m
        \/ m_isRecording m = isRecording view)
  /\ (Forall (fun q => isPostAudio q = false) (requests s) ->
      Forall (fun q => isPostAudio q = false) (requests s2)).
Proof.
  destruct s as [st rf iv tm nt lg].
  destruct w as [wc wa ws wn wr wm wmemo].
  unfold startRecordingBody, createVoiceSession, initAudioProcessing,
    fetchJson, initSpeechRecognition, startStatsPolling.
  unfoldM. simpl.
  destruct (whenTruthy (sessionId view)) as [id|] eqn:Hid; simpl.
  - audio_frame wa ws wn wr wm rf.
  - destruct wc as [m | status [m | [su sid er]]]; simpl; try finish_frame;
      (destruct (ok status); simpl; try finish_frame);
      try (destruct su; simpl; try finish_frame);
      try (destruct (whenTruthy sid); simpl; try finish_frame);
      audio_frame wa ws wn wr wm rf.
Qed.

(** What the [catch] block of [startRecording] leaves alone. *)
Lemma startRecordingCatch_frame (e : jsstring) (s : Store) :
  let s' := run (startRecordingCatch e) s in
  intervals s' = intervals s
  /\ timeouts s' = timeouts s
  /\ nextTimer s' = nextTimer s
  /\ statsIntervalRef (refs s') = statsIntervalRef (refs s)
  /\ lastProcessedText (refs s') = lastProcessedText (refs s)
  /\ recognitionRef (refs s') = recognitionRef (refs s)
  /\ transcript (state s') = transcript (state s)
  /\ finalTranscript (state s') = finalTranscript (state s)
  /\ liveStats (state s') = liveStats (state s)
  /\ requests s' = requests s
  /\ (forall m, mediaRecorderRef (refs s') = Some m ->
        exists m0, mediaRecorderRef (refs s) = Some m0
                   /\ m_isRecording m = m_isRecording m0).
Proof.
  destruct s as [st [rr ac mr ch si lp] iv tm nt lg].
  unfold startRecordingCatch. unfoldM. simpl.
  destruct rr as [r|], mr as [[[] ms mi]|], ac as [[]|]; simpl;
    split_and!; try reflexivity;
    try (unfold requests; simpl; rewrite ?omap_app; simpl;
         rewrite ?app_nil_r; reflexivity);
    intros; simplify_eq; eauto.
Qed.

(** What [stopRecording] leaves, past its guard: the timer tables, the
    recorder, the requests, and what the answer of the backend makes of
    the error, the analysis, the tab and the recorded chunks. *)
Lemma stopRecording_leaves (view : State) (id : jsstring)
    (w : fetched StopReply) (s : Store) :
  whenTruthy (sessionId view) = Some id ->
  isRecording view = true ->
  let s' := run (stopRecording view w) s in
  intervals s' = match statsIntervalRef (refs s) with
                 | Some timer => delete timer (intervals s)
                 | None => intervals s
                 end
  /\ timeouts s' = timeouts s
  /\ nextTimer s' = nextTimer s
  /\ mediaRecorderRef (refs s') =
       match mediaRecorderRef (refs s) with
       | Some m =>
           Some match m_state m with
                | Capturing => withRecorderState Inactive m
                | _ => m
                end
       | None => None
       end
  /\ requests s' = requests s ++ [StopSession id]
  /\ (forall status data,
        w = Responded status (inr data) -> ok status = true ->
        p_success data = true ->
        error (state s') = error (state s)
        /\ audioChunks (refs s') = []
        /\ speechAnalysis (state s') =
             match p_analysis data with
             | Some analysis => Some analysis
             | None => speechAnalysis (state s)
             end
        /\ activeTab (state s') =
             match p_analysis data with
             | Some _ => TipsTab
             | None => activeTab (state s)
             end)
  /\ (forall message,
        w = Rejected message
        \/ (exists status, w = Responded status (inl message)
                           /\ ok status = true)
        \/ (exists status body, w = Responded status body
                                /\ ok status = false
                                /\ message = js "HTTP error! status: "
                                             ++ decimal status)
        \/ (exists status data, w = Responded status (inr data)
                                /\ ok status = true
                                /\ p_success data = false
                                /\ message = orElse (p_error data)
                                     (js "Failed to stop recording session")) ->
        error (state s') = js "Failed to stop recording: " ++ message
        /\ audioChunks (refs s') = audioChunks (refs s)
        /\ speechAnalysis (state s') = speechAnalysis (state s)
        /\ activeTab (state s') = activeTab (state s)).
Proof.
  intros Hid Hrec s'.
  pose (torn :=
    {| state := withIsRecording false (withIsProcessingAudio true (state s));
       refs :=
         {| recognitionRef := None;
            audioContextRef := None;
            mediaRecorderRef :=
              match mediaRecorderRef (refs s) with
              | Some m =>
                  Some match m_state m with
                       | Capturing => withRecorderState Inactive m
                       | _ => m
                       end
              | None => None
              end;
            audioChunks := audioChunks (refs s);
            statsIntervalRef := None;
            lastProcessedText := lastProcessedText (refs s) |};
       intervals := match statsIntervalRef (refs s) with
                    | Some timer => delete timer (intervals s)
                    | None => intervals s
                    end;
       timeouts := timeouts s;
       nextTimer := nextTimer s;
       log := log s
              ++ match statsIntervalRef (refs s) with
                 | Some timer => [ClearInterval timer]
                 | None => []
                 end
              ++ match recognitionRef (refs s) with
                 | Some _ => [RecognitionStop]
                 | None => []
                 end
              ++ match mediaRecorderRef (refs s) with
                 | Some {| m_state := Capturing |} => [RecorderStop]
                 | _ => []
                 end
              ++ match audioContextRef (refs s) with
                 | Some _ => [AudioContextClose]
                 | None => []
                 end |}).
  assert (E : s' = run (tryFinally
                 (tryCatch
                    (data <- fetchJson (StopSession id) w;;
                     (if p_success data then
                        match p_analysis data with
                        | Some analysis =>
                            setSpeechAnalysis (Some analysis);;
                            setActiveTab TipsTab
                        | None => ret tt
                        end
                      else throw (orElse (p_error data)
                                    (js "Failed to stop recording session")));;
                     setRefs (withAudioChunks []))
                    (fun message =>
                       setError (js "Failed to stop recording: " ++ message)))
                 (setIsProcessingAudio false)) torn).
  { subst s' torn. unfold stopRecording. rewrite Hid, Hrec.
    destruct s as [st [rr ac mr ch si lp] iv tm nt lg]. simpl negb.
    cbv iota.
    assert (Hl : forall (l : list Effect) a, (l ++ [a]) = l ++ [a] ++ [])
      by reflexivity.
    destruct si as [timer|], rr as [r|], mr as [[[] ms mi]|], ac as [[]|];
      unfold run, bind, tryFinally, tryCatch, stopStatsPolling, getRefs,
        setRefs, emit, clearInterval, setIsRecording,
        setIsProcessingAudio, setState, ret; cbn -[fetchJson];
      rewrite <- ?app_assoc; cbn -[fetchJson]; rewrite ?app_nil_r;
      reflexivity. }
  rewrite E. clear E s'. subst torn. unfold fetchJson. unfoldM. simpl.
  destruct w as [m | status [m | [su [an|] er]]]; simpl;
    [ | destruct (ok status) eqn:Hok; simpl ..];
    try (destruct su; simpl);
    (split_and!;
     [ reflexivity | reflexivity | reflexivity | reflexivity
     | unfold requests; simpl; rewrite ?omap_app; simpl;
       rewrite <- ?app_assoc; simpl; rewrite ?omap_app;
       destruct (statsIntervalRef (refs s)), (recognitionRef (refs s)),
         (mediaRecorderRef (refs s)) as [[[] ? ?]|],
         (audioContextRef (refs s)); reflexivity
     | intros status' data' Hw Hok' Hsu; simplify_eq; simpl in *;
       try congruence; done
     | intros message Hcases;
       destruct Hcases as
         [Hw | [(status' & Hw & Hok') | [(status' & body' & Hw & Hok' & ->)
         | (status' & data' & Hw & Hok' & Hsu & ->)]]];
       simplify_eq; simpl in *; try congruence; done ]).
Qed.

(** ** The component between events *)

(** [consistent] only looks at a few cells of the store. *)
Lemma consistent_frame (s s' : Store) :
  recognitionRef (refs s') = recognitionRef (refs s) ->
  mediaRecorderRef (refs s') = mediaRecorderRef (refs s) ->
  statsIntervalRef (refs s') = statsIntervalRef (refs s) ->
  timeouts s' = timeouts s ->
  intervals s' = intervals s ->
  isRecording (state s') = isRecording (state s) ->
  sessionId (state s') = sessionId (state s) ->
  isProcessingAudio (state s') = isProcessingAudio (state s) ->
  Forall (fun q => isPostAudio q = false) (requests s') ->
  consistent s -> consistent s'.
Proof.
  unfold consistent.
  intros -> -> -> -> -> -> -> -> Hq (H1 & H2 & H3 & H4 & H5 & H6 & _).
  split_and!; assumption.
Qed.

(** The handlers of a recognition object that closes over
    [isRecording = false] make no request and touch only the transcript
    and the error. *)
Lemma onresult_stale (r : Recognition) (event : ResultEvent)
    (w : fetched StatsReply) (s : Store) :
  r_isRecording r = false ->
  let s' := run (onresult r event w) s in
  refs s' = refs s /\ intervals s' = intervals s /\ timeouts s' = timeouts s
  /\ nextTimer s' = nextTimer s /\ log s' = log s
  /\ isRecording (state s') = isRecording (state s)
  /\ sessionId (state s') = sessionId (state s)
  /\ isProcessingAudio (state s') = isProcessingAudio (state s)
  /\ liveStats (state s') = liveStats (state s).
Proof.
  intros Hr s'. subst s'. unfold onresult.
  destruct (scanResults event) as [[i f] n].
  rewrite Hr. simpl.
  destruct (nonEmpty f); [|unfoldM; simpl; done].
  pose (s1 := {| state :=
                   withTranscript (transcript (state s) ++ f ++ i)
                     (withFinalTranscript (finalTranscript (state s) ++ f)
                        (state s));
                 refs := refs s; intervals := intervals s;
                 timeouts := timeouts s; nextTimer := nextTimer s;
                 log := log s |}).
  assert (E : run (when (nonEmpty (trim n))
                (processTextUpdate (r_sessionId r) false (trim n) w)) s1 = s1).
  { destruct (nonEmpty (trim n)); [|reflexivity]. simpl.
    apply (processTextUpdate_frame (r_sessionId r) false (trim n) w s1).
    reflexivity. }
  change (run (setState (fun prev =>
                 withFinalTranscript (finalTranscript prev ++ f) prev);;
               setState (fun prev =>
                 withTranscript (transcript prev ++ f ++ i) prev);;
               when (nonEmpty (trim n))
                 (processTextUpdate (r_sessionId r) false (trim n) w)) s)
    with (run (when (nonEmpty (trim n))
                 (processTextUpdate (r_sessionId r) false (trim n) w)) s1).
  rewrite E. done.
Qed.

Lemma fireInterval_quiet (id : positive) (w : fetched StatsReply) (s : Store) :
  let s' := run (fireInterval id w) s in
  refs s' = refs s /\ intervals s' = intervals s /\ timeouts s' = timeouts s
  /\ nextTimer s' = nextTimer s
  /\ isRecording (state s') = isRecording (state s)
  /\ sessionId (state s') = sessionId (state s)
  /\ isProcessingAudio (state s') = isProcessingAudio (state s)
  /\ finalTranscript (state s') = finalTranscript (state s)
  /\ (requests s' = requests s
      \/ exists sid, requests s' = requests s ++ [GetStats sid]).
Proof.
  unfold fireInterval, run.
  destruct (intervals s !! id) as [cur|]; simpl; [|by auto 10].
  unfold statsIntervalCallback.
  destruct (whenTruthy cur) as [sid|]; simpl; [|by auto 10].
  unfoldM.
  destruct w as [m | status [m | [su [ls|]]]]; simpl;
    try destruct (ok status); simpl; try destruct su; simpl;
    repeat split; try reflexivity;
    right; exists sid; unfold requests; simpl; rewrite omap_app; reflexivity.
Qed.

Lemma ondataavailable_stale (m : Recorder) (data : Blob)
    (w : fetched StatsReply) (s : Store) :
  m_isRecording m = false ->
  let s' := run (ondataavailable m data w) s in
  state s' = state s /\ intervals s' = intervals s /\ timeouts s' = timeouts s
  /\ nextTimer s' = nextTimer s /\ log s' = log s
  /\ withAudioChunks (audioChunks (refs s)) (refs s') = refs s.
Proof.
  intros Hm. unfold ondataavailable, processAudioChunk. rewrite Hm.
  destruct s as [st [] iv tm nt lg].
  destruct (nonEmpty data); [|done].
  destruct (whenTruthy (m_sessionId m)); done.
Qed.

(** The [finally] block of [startRecording] and [stopRecording] brings
    back consistency. *)
Lemma finally_consistent (s : Store) :
  (forall r, recognitionRef (refs s) = Some r -> r_isRecording r = false) ->
  (forall m, mediaRecorderRef (refs s) = Some m -> m_isRecording m = false) ->
  timeouts s = ∅ ->
  (forall id sid, intervals s !! id = Some sid ->
     statsIntervalRef (refs s) = Some id
     /\ isRecording (state s) = true
     /\ sid = sessionId (state s)) ->
  (isRecording (state s) = true -> truthy (sessionId (state s)) = true) ->
  Forall (fun q => isPostAudio q = false) (requests s) ->
  consistent (run (setIsProcessingAudio false) s).
Proof.
  intros. unfold consistent, run, setIsProcessingAudio, setState. simpl.
  split_and!; try assumption. reflexivity.
Qed.

(** [startRecording], run from the current render, keeps the store
    consistent. *)
Lemma startRecording_consistent (w : StartWorld) (s : Store) :
  consistent s -> consistent (run (startRecording (state s) w) s).
Proof.
  intros Hc.
  destruct (isRecording (state s)) eqn:Hrec.
  { unfold startRecording. rewrite Hrec, orb_true_r. exact Hc. }
  destruct Hc as (H1 & H2 & H3 & H4 & H5 & H6 & H7).
  unfold run. rewrite (startRecording_entered (state s) w s H6 Hrec).
  set (entered := run (setIsProcessingAudio true;; setError []) s).
  assert (Hempty : forall id, intervals s !! id = None).
  { intros id. destruct (intervals s !! id) as [sid|] eqn:E; [|reflexivity].
    destruct (H4 id sid E) as (_ & Ht & _). congruence. }
  unfold tryFinally, tryCatch.
  destruct (startRecordingBody (state s) w entered) as [[[]|e] s2] eqn:Eb.
  - destruct (startRecordingBody_returns (state s) w entered s2 eq_refl Eb)
      as (id & Hne & Hsid & Hrec2 & Hlog & Hrefs & Hiv & Htm & Hpa).
    apply finally_consistent; rewrite ?Hrefs, ?Hiv, ?Htm, ?Hsid, ?Hrec2; simpl.
    + intros r [= <-]. exact Hrec.
    + intros m [= <-]. exact Hrec.
    + exact H3.
    + intros id' sid'. rewrite lookup_insert. case_decide as Hd.
      * intros [= <-]. subst id'. done.
      * destruct (statsIntervalRef (refs s)) as [old|];
          [rewrite lookup_delete; case_decide|]; rewrite ?Hempty; done.
    + intros _. exact Hne.
    + unfold requests. rewrite Hlog. simpl.
      rewrite !omap_app, !Forall_app. split_and!; [exact H7|..];
        destruct (whenTruthy (sessionId (state s))),
          (statsIntervalRef (refs s)); simpl; repeat constructor.
  - destruct (startRecordingBody_throw_frame (state s) w entered s2 e Eb)
      as (Ti & Tt & _ & Ts & _ & Tr & _ & _ & _ & _ & Tg & Tm & Tq).
    pose proof (startRecordingCatch_runs e s2) as (Hcatch & _ & _ & Cr & _).
    destruct (startRecordingCatch_frame e s2)
      as (Ci & Ct & _ & Cs & _ & Cg & _ & _ & _ & Cq & Cm).
    rewrite Hcatch. set (s3 := run (startRecordingCatch e) s2) in *.
    apply finally_consistent; rewrite ?Ci, ?Ct, ?Cs, ?Cg, ?Ti, ?Tt, ?Ts.
    + intros r [Hr | Hr]%Tg; [exact (H1 r Hr) | rewrite Hr; exact Hrec].
    + intros m (m0 & Hm0 & ->)%Cm.
      destruct (Tm m0 Hm0) as [Hm | Hm];
        [exact (H2 m0 Hm) | rewrite Hm; exact Hrec].
    + exact H3.
    + intros id' sid'. simpl. rewrite Hempty. done.
    + rewrite Cr. done.
    + rewrite Cq. apply Tq. exact H7.
Qed.

(** [stopRecording] does nothing unless its render has recording active
    and a session id. *)
Lemma stopRecording_guarded (view : State) (w : fetched StopReply)
    (s : Store) :
  isRecording view = false \/ truthy (sessionId view) = false ->
  run (stopRecording view w) s = s.
Proof.
  intros H. unfold stopRecording.
  destruct (whenTruthy (sessionId view)) eqn:E; [|reflexivity].
  destruct H as [-> | H]; [reflexivity|].
  apply whenTruthy_truthy in H. congruence.
Qed.

Lemma truthy_whenTruthy (v : option jsstring) :
  truthy v = true -> exists id, whenTruthy v = Some id.
Proof.
  destruct (whenTruthy v) as [id|] eqn:E; [eauto|].
  apply whenTruthy_truthy in E. congruence.
Qed.

(** A consistent store that is not recording has no interval. *)
Lemma consistent_idle_no_interval (s : Store) (id : positive) :
  consistent s -> isRecording (state s) = false -> intervals s !! id = None.
Proof.
  intros (_ & _ & _ & H4 & _) Hrec.
  destruct (intervals s !! id) as [sid|] eqn:E; [|reflexivity].
  destruct (H4 id sid E) as (_ & Ht & _). congruence.
Qed.

Lemma stopRecording_consistent (w : fetched StopReply) (s : Store) :
  consistent s -> consistent (run (stopRecording (state s) w) s).
Proof.
  intros Hc.
  destruct (isRecording (state s)) eqn:Hrec;
    [|rewrite stopRecording_guarded; [exact Hc | left; exact Hrec]].
  pose proof Hc as (H1 & H2 & H3 & H4 & H5 & H6 & H7).
  destruct (truthy_whenTruthy _ (H5 Hrec)) as [id Hid].
  destruct (stopRecording_runs (state s) id w s Hid Hrec)
    as (_ & Rrec & Rpa & Rrr & _ & Rsi & _).
  destruct (stopRecording_leaves (state s) id w s Hid Hrec)
    as (Liv & Ltm & _ & Lmr & Lrq & _).
  set (s' := run (stopRecording (state s) w) s) in *.
  unfold consistent. rewrite Rrec, Rpa, Rrr, Ltm, Liv, Lmr, Lrq.
  split_and!; try done.
  - intros m. destruct (mediaRecorderRef (refs s)) as [m0|] eqn:Em; [|done].
    intros [= <-]. specialize (H2 m0 eq_refl).
    destruct m0 as [[] ? ?]; exact H2.
  - intros id' sid'.
    destruct (statsIntervalRef (refs s)) as [timer|] eqn:Et.
    + rewrite lookup_delete. case_decide; [done|].
      intros E. destruct (H4 id' sid' E) as (Hx & _). congruence.
    + intros E. destruct (H4 id' sid' E) as (Hx & _). congruence.
  - rewrite Forall_app. split; [exact H7 | repeat constructor].
Qed.

(** [clearTranscript] after its [stopRecording]. *)
Lemma clearTranscript_rest_consistent (view : State) (wDelete : fetched unit)
    (s : Store) :
  consistent s -> isRecording (state s) = false ->
  consistent
    (run (setTranscript [];;
          setFinalTranscript [];;
          setSpeechAnalysis None;;
          match whenTruthy (sessionId view) with
          | Some id => deleteSession id wDelete;; setSessionId None
          | None => ret tt
          end;;
          setLiveStats zeroStats;;
          setRefs (withLastProcessedText [])) s).
Proof.
  intros Hc Hrec.
  pose proof (fun id => consistent_idle_no_interval s id Hc Hrec) as Hempty.
  destruct Hc as (H1 & H2 & H3 & H4 & H5 & H6 & H7).
  unfold deleteSession. unfoldM.
  destruct (whenTruthy (sessionId view)) as [id|]; simpl;
    [destruct wDelete as [m | status body]; simpl|];
    (unfold consistent; simpl; split_and!; try assumption;
     try (intros id' sid'; rewrite Hempty; done);
     try (rewrite Hrec; done);
     unfold requests in *; simpl; rewrite ?omap_app, ?Forall_app;
     split_and?; try assumption; repeat constructor).
Qed.

Lemma clearTranscript_consistent (wStop : fetched StopReply)
    (wDelete : fetched unit) (s : Store) :
  consistent s ->
  consistent (run (clearTranscript (state s) wStop wDelete) s).
Proof.
  intros Hc. unfold clearTranscript.
  destruct (isRecording (state s)) eqn:Hrec; simpl when.
  - unfold run at 1. rewrite bind_returns;
      [|rewrite stopRecording_returns; reflexivity].
    apply clearTranscript_rest_consistent.
    + apply stopRecording_consistent, Hc.
    + pose proof Hc as (_ & _ & _ & _ & H5 & _).
      destruct (truthy_whenTruthy _ (H5 Hrec)) as [id Hid].
      apply (stopRecording_runs (state s) id wStop s Hid Hrec).
  - apply clearTranscript_rest_consistent; assumption.
Qed.

(** [handleLogout] after its [stopRecording]. *)
Lemma handleLogout_rest_consistent (view : State) (wDelete : fetched unit)
    (s : Store) :
  consistent s -> isRecording (state s) = false ->
  consistent
    (run (stopStatsPolling;;
          match whenTruthy (sessionId view) with
          | Some id => deleteSession id wDelete
          | None => ret tt
          end;;
          setTranscript [];;
          setFinalTranscript [];;
          setSessionId None;;
          setSpeechAnalysis None;;
          setLiveStats zeroStats;;
          setRefs (withLastProcessedText [])) s).
Proof.
  intros Hc Hrec.
  pose proof (fun id => consistent_idle_no_interval s id Hc Hrec) as Hempty.
  destruct Hc as (H1 & H2 & H3 & H4 & H5 & H6 & H7).
  unfold deleteSession, stopStatsPolling. unfoldM.
  destruct (statsIntervalRef (refs s)) as [timer|]; simpl;
    (destruct (whenTruthy (sessionId view)) as [id|]; simpl;
     [destruct wDelete as [m | status body]; simpl|]);
    (unfold consistent; simpl; split_and!; try assumption;
     try (intros id' sid'; rewrite ?lookup_delete; try case_decide;
          rewrite ?Hempty; done);
     try (rewrite Hrec; done);
     unfold requests in *; simpl; rewrite ?omap_app, ?Forall_app;
     simpl; rewrite ?Forall_app;
     split_and?; try assumption; repeat constructor).
Qed.

Lemma handleLogout_consistent (wStop : fetched StopReply)
    (wDelete : fetched unit) (s : Store) :
  consistent s ->
  consistent (run (handleLogout (state s) wStop wDelete) s).
Proof.
  intros Hc. unfold handleLogout.
  destruct (isRecording (state s)) eqn:Hrec; simpl when.
  - unfold run at 1. rewrite bind_returns;
      [|rewrite stopRecording_returns; reflexivity].
    apply handleLogout_rest_consistent.
    + apply stopRecording_consistent, Hc.
    + pose proof Hc as (_ & _ & _ & _ & H5 & _).
      destruct (truthy_whenTruthy _ (H5 Hrec)) as [id Hid].
      apply (stopRecording_runs (state s) id wStop s Hid Hrec).
  - apply handleLogout_rest_consistent; assumption.
Qed.

(** Every event keeps the store consistent. *)
Lemma step_consistent (e : Event) (s : Store) :
  consistent s -> consistent (step e s).
Proof.
  intros Hc. pose proof Hc as (H1 & H2 & H3 & H4 & H5 & H6 & H7).
  destruct e as [wStart wStop | wStop wDelete | wStop wDelete | event w
                | code | | id failure | id w | data w]; simpl.
  - unfold toggleRecording. rewrite H6.
    destruct (isRecording (state s));
      [apply stopRecording_consistent | apply startRecording_consistent];
      exact Hc.
  - apply clearTranscript_consistent, Hc.
  - apply handleLogout_consistent, Hc.
  - destruct (recognitionRef (refs s)) as [r|] eqn:Er; [|exact Hc].
    destruct (onresult_stale r event w s (H1 r eq_refl))
      as (Hr & Hi & Ht & _ & Hl & Hrec & Hsid & Hpa & _).
    apply (consistent_frame s); try assumption; try (rewrite Hr; reflexivity).
    unfold requests. rewrite Hl. exact H7.
  - destruct (recognitionRef (refs s)) as [r|] eqn:Er; [|exact Hc].
    apply (consistent_frame s); try assumption; try reflexivity;
      unfold onerror; unfoldM;
      repeat (case_match; simpl); try reflexivity; exact H7.
  - destruct (recognitionRef (refs s)) as [r|] eqn:Er; [|exact Hc].
    unfold onend. rewrite (H1 r eq_refl). exact Hc.
  - unfold fireTimeout, run. rewrite H3, lookup_empty. exact Hc.
  - destruct (fireInterval_quiet id w s)
      as (Hr & Hi & Ht & _ & Hrec & Hsid & Hpa & _ & Hq).
    apply (consistent_frame s); try assumption; try (rewrite Hr; reflexivity).
    destruct Hq as [-> | [sid ->]]; [exact H7|].
    rewrite Forall_app. split; [exact H7 | repeat constructor].
  - destruct (mediaRecorderRef (refs s)) as [m|] eqn:Em; [|exact Hc].
    destruct (ondataavailable_stale m data w s (H2 m eq_refl))
      as (Hst & Hi & Ht & _ & Hl & Hrf).
    apply (consistent_frame s); try assumption;
      try (rewrite Hst; reflexivity);
      try (rewrite <- Hrf; reflexivity).
    unfold requests. rewrite Hl. exact H7.
Qed.

Lemma initialStore_consistent : consistent initialStore.
Proof.
  unfold consistent, initialStore. simpl. split_and!; done.
Qed.

(** The store is consistent after any run of events. *)
Lemma after_consistent (events : list Event) : consistent (after events).
Proof.
  unfold after.
  assert (H : forall s, consistent s ->
                consistent (fold_left (fun s e => step e s) events s)).
  { induction events as [|e events IH]; intros s Hs; simpl; [exact Hs|].
    apply IH, step_consistent, Hs. }
  apply H, initialStore_consistent.
Qed.

(** X6.  Whatever happens to the mounted speech-coach component, it never
    sends an audio chunk or a transcript segment to the backend: the
    handlers that would ([processAudioChunk] through [ondataavailable],
    [processTextUpdate] through [onresult]) belong to the render that
    pressed Start, in which [isRecording] is false, so their guards
    always stop them. *)
Theorem never_posts_audio (events : list Event) :
  Forall (fun q => isPostAudio q = false) (requests (after events)).
Proof. apply (after_consistent events). Qed.

(** X7.  Whatever happens to the mounted speech-coach component, no
    restart of the recognition is ever armed: the table of timeouts stays
    empty, and an end of the recognition leaves the store as it is. *)
Theorem never_arms_restart (events : list Event) :
  timeouts (after events) = ∅
  /\ step RecognitionEnd (after events) = after events.
Proof.
  destruct (after_consistent events) as (H1 & _ & H3 & _).
  split; [exact H3|]. simpl.
  destruct (recognitionRef (refs (after events))) as [r|] eqn:Er;
    [|reflexivity].
  unfold onend. rewrite (H1 r eq_refl). reflexivity.
Qed.

(** X8.  Whatever happens to the mounted speech-coach component, an
    interval in the browser's table is the one [statsIntervalRef] holds
    (so there is at most one poller), recording is then active, and the
    interval polls the current session. *)
Theorem one_poller_while_recording (events : list Event) (id : positive)
    (sid : option jsstring) :
  intervals (after events) !! id = Some sid ->
  statsIntervalRef (refs (after events)) = Some id
  /\ isRecording (state (after events)) = true
  /\ sid = sessionId (state (after events)).
Proof.
  destruct (after_consistent events) as (_ & _ & _ & H4 & _). apply H4.
Qed.

Lemma one_poller_while_recording_witness :
  intervals (after [PressToggle (allGoesWell "s1") (Rejected [])])
    !! 1%positive = Some (Some (js "s1"))
  /\ statsIntervalRef
       (refs (after [PressToggle (allGoesWell "s1") (Rejected [])]))
     = Some 1%positive
  /\ isRecording
       (state (after [PressToggle (allGoesWell "s1") (Rejected [])])) = true
  /\ Some (js "s1")
     = sessionId
         (state (after [PressToggle (allGoesWell "s1") (Rejected [])])).
Proof.
  split; [reflexivity|].
  exact (one_poller_while_recording
           [PressToggle (allGoesWell "s1") (Rejected [])] 1
           (Some (js "s1")) eq_refl).
Defined.

(** X9.  Between two events of the mounted speech-coach component no
    start or stop is in flight, and recording is active only with a
    session id at hand. *)
Theorem recording_has_session (events : list Event) :
  isProcessingAudio (state (after events)) = false
  /\ (isRecording (state (after events)) = true ->
      truthy (sessionId (state (after events))) = true).
Proof.
  destruct (after_consistent events) as (_ & _ & _ & _ & H5 & H6 & _).
  done.
Qed.

(** ** Start, stop and clear, end to end *)


(** X10.  A run of [startRecording] in which every step succeeds does
    them in this order: the session is created unless one is at hand,
    the microphone, the audio context and the recorder are set up, the
    start request is sent, the recognition is created and started, the
    recorder is started with one-second chunks, and the stats interval
    is armed (after the clearing of a former one).  It ends in Recording
    mode with the error cleared and [lastProcessedText] reset. *)
Theorem startRecording_success_order (view : State) (w : StartWorld)
    (s : Store) :
  isProcessingAudio view = false ->
  isRecording view = false ->
  sessionId (state s) = sessionId view ->
  fst (startRecordingBody view w
         (run (setIsProcessingAudio true;; setError []) s)) = Return tt ->
  let s' := run (startRecording view w) s in
  exists id,
    nonEmpty id = true
    /\ sessionId (state s') = Some id
    /\ log s' =
         log s
         ++ match whenTruthy (sessionId view) with
            | Some _ => []
            | None => [Fetch CreateSession]
            end
         ++ [GetUserMedia; AudioContextNew; RecorderNew;
             Fetch (StartSession id); RecognitionNew; RecognitionStart;
             RecorderStart 1000]
         ++ match statsIntervalRef (refs s) with
            | Some old => [ClearInterval old]
            | None => []
            end
         ++ [SetInterval (nextTimer s) 1000]
    /\ intervals s' !! nextTimer s = Some (Some id)
    /\ isRecording (state s') = true
    /\ isProcessingAudio (state s') = false
    /\ error (state s') = []
    /\ lastProcessedText (refs s') = [].
Proof.
  intros Hp Hr Hsid Hret s'.
  set (entered := run (setIsProcessingAudio true;; setError []) s) in *.
  destruct (startRecordingBody view w entered) as [o s2] eqn:Eb.
  simpl in Hret. subst o.
  destruct (startRecordingBody_returns view w entered s2 Hsid Eb)
    as (id & Hne & Hid & Hrec & Hlog & Hrefs & Hiv & _ & _ & Herr & _).
  assert (E : s' = run (setIsProcessingAudio false) s2).
  { subst s'. unfold run at 1.
    rewrite (startRecording_entered view w s Hp Hr).
    fold entered. unfold tryFinally, tryCatch. rewrite Eb. reflexivity. }
  exists id. rewrite E. unfold run, setIsProcessingAudio, setState. simpl.
  rewrite Hid, Hlog, Hrefs, Hiv, Hrec, Herr. simpl.
  rewrite lookup_insert_eq. done.
Qed.

Lemma startRecording_success_order_witness :
  isProcessingAudio initialState = false
  /\ isRecording initialState = false
  /\ sessionId (state initialStore) = sessionId initialState
  /\ fst (startRecordingBody initialState (allGoesWell "s1")
            (run (setIsProcessingAudio true;; setError []) initialStore))
     = Return tt
  /\ exists id,
       nonEmpty id = true
       /\ sessionId (state started) = Some id
       /\ log started =
            log initialStore
            ++ match whenTruthy (sessionId initialState) with
               | Some _ => []
               | None => [Fetch CreateSession]
               end
            ++ [GetUserMedia; AudioContextNew; RecorderNew;
                Fetch (StartSession id); RecognitionNew; RecognitionStart;
                RecorderStart 1000]
            ++ match statsIntervalRef (refs initialStore) with
               | Some old => [ClearInterval old]
               | None => []
               end
            ++ [SetInterval (nextTimer initialStore) 1000]
       /\ intervals started !! nextTimer initialStore = Some (Some id)
       /\ isRecording (state started) = true
       /\ isProcessingAudio (state started) = false
       /\ error (state started) = []
       /\ lastProcessedText (refs started) = [].
Proof.
  split; [reflexivity|]. split; [reflexivity|]. split; [reflexivity|].
  split; [vm_compute; reflexivity|].
  exact (startRecording_success_order initialState (allGoesWell "s1")
           initialStore eq_refl eq_refl eq_refl eq_refl).
Defined.



(** Closes one path of [startRecordingBody], for the requests it makes
    when a session id is at hand. *)
Ltac finish_requests :=
  let H := fresh in
  lazymatch goal with
  | |- (Throw _, _) = _ -> _ => idtac
  | |- (Return _, _) = _ -> _ => idtac
  end;
  intros H;
  solve [inversion H; subst; unfold requests; simpl;
         rewrite ?omap_app; simpl; rewrite ?app_nil_r;
         rewrite <- ?app_assoc; simpl; auto].

Lemma startRecordingBody_reuses_session (view : State) (w : StartWorld)
    (s s2 : Store) (id : jsstring) (o : Outcome unit) :
  whenTruthy (sessionId view) = Some id ->
  startRecordingBody view w s = (o, s2) ->
  requests s2 = requests s \/ requests s2 = requests s ++ [StartSession id].
Proof.
  destruct s as [st rf iv tm nt lg].
  destruct w as [wc wa ws wn wr wm wmemo].
  unfold startRecordingBody, createVoiceSession, initAudioProcessing,
    fetchJson, initSpeechRecognition, startStatsPolling.
  unfoldM. simpl. intros ->. simpl.
  destruct wa as [m|m|m|]; simpl; try finish_requests;
  destruct ws as [m | status [m | [su er]]]; simpl; try finish_requests;
  (destruct (ok status); simpl; try finish_requests);
  try (destruct su; simpl; try finish_requests);
  destruct wn as [m|]; simpl; try finish_requests;
  destruct wr as [m|]; simpl; try finish_requests;
  destruct wm as [m|]; simpl; try finish_requests;
  destruct (statsIntervalRef rf); simpl; try finish_requests.
Qed.

(** X12.  With a session id at hand [startRecording] reuses it: whatever
    happens, the run makes no request at all or exactly one, the start
    request for that id; in particular it creates no session. *)
Theorem startRecording_reuses_session (view : State) (w : StartWorld)
    (s : Store) (id : jsstring) :
  sessionId view = Some id ->
  nonEmpty id = true ->
  let s' := run (startRecording view w) s in
  requests s' = requests s \/ requests s' = requests s ++ [StartSession id].
Proof.
  intros Hid Hne s'. subst s'.
  assert (Hw : whenTruthy (sessionId view) = Some id)
    by (apply whenTruthy_Some; done).
  destruct (isProcessingAudio view) eqn:Hp;
    [left; unfold startRecording; rewrite Hp; reflexivity|].
  destruct (isRecording view) eqn:Hr;
    [left; unfold startRecording; rewrite Hp, Hr; reflexivity|].
  unfold run. rewrite (startRecording_entered view w s Hp Hr).
  set (entered := run (setIsProcessingAudio true;; setError []) s).
  change (requests s) with (requests entered).
  unfold tryFinally, tryCatch.
  destruct (startRecordingBody view w entered) as [[[]|e] s2] eqn:Eb.
  - exact (startRecordingBody_reuses_session view w entered s2 id _ Hw Eb).
  - destruct (startRecordingCatch_runs e s2) as (Hc & _).
    destruct (startRecordingCatch_frame e s2)
      as (_ & _ & _ & _ & _ & _ & _ & _ & _ & Cq & _).
    rewrite Hc.
    change (requests (run (startRecordingCatch e) s2) = requests entered
            \/ requests (run (startRecordingCatch e) s2)
               = requests entered ++ [StartSession id]).
    rewrite Cq.
    exact (startRecordingBody_reuses_session view w entered s2 id _ Hw Eb).
Qed.

Lemma startRecording_reuses_session_witness :
  sessionId (state started) = Some (js "s1")
  /\ nonEmpty (js "s1") = true
  /\ (requests (run (startRecording
                       (withIsRecording false (state started))
                       microphoneRefused) started)
      = requests started
      \/ requests (run (startRecording
                          (withIsRecording false (state started))
                          microphoneRefused) started)
         = requests started ++ [StartSession (js "s1")]).
Proof.
  split; [reflexivity|]. split; [reflexivity|].
  exact (startRecording_reuses_session
           (withIsRecording false (state started)) microphoneRefused
           started (js "s1") eq_refl eq_refl).
Defined.

(** X13.  [createVoiceSession] never throws and makes exactly one
    request.  When the backend answers with an [ok] status and [success],
    it stores the [session_id] of the answer as the session id and
    returns it, leaving the error alone; in every other case it returns
    [null], leaves the session id alone and shows an error that starts
    with "Session creation failed: ". *)
Theorem createVoiceSession_outcome (w : fetched CreateReply) (s : Store) :
  let result := fst (createVoiceSession w s) in
  let s' := snd (createVoiceSession w s) in
  log s' = log s ++ [Fetch CreateSession]
  /\ refs s' = refs s
  /\ match createdId w with
     | Some v =>
         result = Return v
         /\ sessionId (state s') = v
         /\ error (state s') = error (state s)
     | None =>
         result = Return None
         /\ sessionId (state s') = sessionId (state s)
         /\ exists message,
              error (state s') = js "Session creation failed: " ++ message
     end.
Proof.
  unfold createVoiceSession, fetchJson, createdId. unfoldM. simpl.
  destruct w as [m | status [m | [su sid er]]]; simpl;
    try destruct (ok status); simpl; try destruct su; simpl;
    split_and!; eauto.
Qed.

(** X14.  What the answer to the stop request makes of a
    [stopRecording] from Recording mode.  On an [ok] answer with
    [success] the recorded chunks are dropped, the error is left alone,
    and an analysis in the answer becomes the final analysis with the
    Tips tab selected.  On a rejection, a status that is not [ok], a body
    that does not decode or an answer without [success] the error shows
    "Failed to stop recording: " and the message, and the analysis, the
    tab and the recorded chunks are left alone. *)
Theorem stopRecording_outcome (view : State) (id : jsstring)
    (w : fetched StopReply) (s : Store) :
  isRecording view = true ->
  sessionId view = Some id ->
  nonEmpty id = true ->
  let s' := run (stopRecording view w) s in
  (forall status data,
     w = Responded status (inr data) -> ok status = true ->
     p_success data = true ->
     error (state s') = error (state s)
     /\ audioChunks (refs s') = []
     /\ speechAnalysis (state s') =
          match p_analysis data with
          | Some analysis => Some analysis
          | None => speechAnalysis (state s)
          end
     /\ activeTab (state s') =
          match p_analysis data with
          | Some _ => TipsTab
          | None => activeTab (state s)
          end)
  /\ (forall message,
        w = Rejected message
        \/ (exists status, w = Responded status (inl message)
                           /\ ok status = true)
        \/ (exists status body, w = Responded status body
                                /\ ok status = false
                                /\ message = js "HTTP error! status: "
                                             ++ decimal status)
        \/ (exists status data, w = Responded status (inr data)
                                /\ ok status = true
                                /\ p_success data = false
                                /\ message = orElse (p_error data)
                                     (js "Failed to stop recording session")) ->
        error (state s') = js "Failed to stop recording: " ++ message
        /\ audioChunks (refs s') = audioChunks (refs s)
        /\ speechAnalysis (state s') = speechAnalysis (state s)
        /\ activeTab (state s') = activeTab (state s)).
Proof.
  intros Hrec Hid Hne s'.
  assert (Hw : whenTruthy (sessionId view) = Some id)
    by (apply whenTruthy_Some; done).
  destruct (stopRecording_leaves view id w s Hw Hrec)
    as (_ & _ & _ & _ & _ & H1 & H2).
  split; assumption.
Qed.

Lemma stopRecording_outcome_witness :
  isRecording (state started) = true
  /\ sessionId (state started) = Some (js "s1")
  /\ nonEmpty (js "s1") = true
  /\ error (state (run (stopRecording (state started)
                          (Responded 503 (inl []))) started))
     = js "Failed to stop recording: "
       ++ (js "HTTP error! status: " ++ decimal 503).
Proof.
  split; [reflexivity|]. split; [reflexivity|]. split; [reflexivity|].
  refine (proj1 (proj2 (stopRecording_outcome (state started) (js "s1")
                          (Responded 503 (inl [])) started
                          eq_refl eq_refl eq_refl) _ _)).
  right. right. left. exists 503, (inl []). done.
Defined.

(** The delete request leaves the same store whatever answers it. *)
Lemma deleteSession_runs (id : jsstring) (w : fetched unit) (s : Store) :
  deleteSession id w s
  = (Return tt,
     {| state := state s; refs := refs s; intervals := intervals s;
        timeouts := timeouts s; nextTimer := nextTimer s;
        log := log s ++ [Fetch (DeleteSession id)] |}).
Proof.
  unfold deleteSession. unfoldM. destruct w as [m | status body]; reflexivity.
Qed.

(** X15.  The answer to the delete request of [clearTranscript] makes no
    difference: a failed deletion is neither shown nor retried, and the
    session id is cleared all the same. *)
Theorem clearTranscript_ignores_delete_answer (view : State)
    (wStop : fetched StopReply) (w1 w2 : fetched unit) (s : Store) :
  run (clearTranscript view wStop w1) s = run (clearTranscript view wStop w2) s
  /\ (truthy (sessionId view) = true ->
      sessionId (state (run (clearTranscript view wStop w1) s)) = None).
Proof.
  assert (E : forall w,
    run (clearTranscript view wStop w) s
    = run (setTranscript [];;
           setFinalTranscript [];;
           setSpeechAnalysis None;;
           match whenTruthy (sessionId view) with
           | Some id => deleteSession id w;; setSessionId None
           | None => ret tt
           end;;
           setLiveStats zeroStats;;
           setRefs (withLastProcessedText []))
          (run (when (isRecording view) (stopRecording view wStop)) s)).
  { intros w. unfold clearTranscript. unfold run at 1.
    rewrite bind_returns; [reflexivity|].
    destruct (isRecording view); simpl;
      [rewrite stopRecording_returns|]; reflexivity. }
  rewrite !E.
  set (s1 := run (when (isRecording view) (stopRecording view wStop)) s).
  clearbody s1.
  destruct (whenTruthy (sessionId view)) as [id|] eqn:Hid.
  - unfold run, bind. unfoldM. simpl. rewrite !deleteSession_runs. done.
  - split; [reflexivity|]. intros Ht.
    apply whenTruthy_truthy in Hid. congruence.
Qed.

(** X16.  An audio chunk whose request fails (rejection, status that is
    not [ok], body that does not decode, answer without [success] or
    [live_stats]) costs nothing but the request: the state, the refs and
    the timers are as before, so the recording goes on. *)
Theorem processAudioChunk_failure_is_absorbed (sessionId : option jsstring)
    (isRecording : bool) (audioData : Blob) (w : fetched StatsReply)
    (s : Store) :
  tickFails w = true ->
  let s' := run (processAudioChunk sessionId isRecording audioData w) s in
  state s' = state s /\ refs s' = refs s /\ intervals s' = intervals s
  /\ timeouts s' = timeouts s.
Proof.
  intros Hw s'. subst s'. unfold processAudioChunk, fetchJson.
  destruct (whenTruthy sessionId); [|done].
  destruct isRecording; [|done]. unfoldM. simpl.
  destruct w as [m | status [m | [su [ls|]]]]; simpl in *; try done;
    destruct (ok status); simpl in *; try done.
  destruct su; simpl in *; done.
Qed.

Lemma processAudioChunk_failure_is_absorbed_witness :
  tickFails (Responded 500 (inl [])) = true
  /\ state (run (processAudioChunk (Some (js "s1")) true [1; 2; 3]
                   (Responded 500 (inl []))) started)
     = state started.
Proof.
  split; [reflexivity|].
  exact (proj1 (processAudioChunk_failure_is_absorbed (Some (js "s1")) true
                  [1; 2; 3] (Responded 500 (inl [])) started eq_refl)).
Defined.

(** ** Sign-up and login *)

(** X17.  [handleAuth] either succeeds, and then the error is cleared,
    the user is the trimmed email, the form is emptied and the stored
    users gain the trimmed credentials (sign-up) or are left alone
    (login); or it fails, and then it shows an error and changes nothing
    else: not the user, not the form, not the stored users. *)
Theorem handleAuth_all_or_nothing (a : AuthStore) :
  let a' := handleAuth a in
  (authError a' = []
   /\ user a' = Some (trim (email a))
   /\ email a' = [] /\ password a' = []
   /\ authMode a' = authMode a
   /\ users a' = match authMode a with
                 | SignupMode =>
                     Some (<[trim (email a) := trim (password a)]>
                             (storedUsersOf a))
                 | LoginMode => users a
                 end)
  \/ (authError a' <> []
      /\ user a' = user a /\ users a' = users a
      /\ email a' = email a /\ password a' = password a
      /\ authMode a' = authMode a).
Proof.
  unfold handleAuth.
  destruct (negb (nonEmpty (trim (email a)))
            || negb (nonEmpty (trim (password a)))); simpl;
    [right; split_and!; done|].
  destruct (authMode a); simpl; repeat case_match; simpl;
    (left; split_and!; done) || (right; split_and!; done).
Qed.

(** A sign-up that succeeds had credentials that are not blank and
    stores them, trimmed. *)
Lemma signup_succeeds (a : AuthStore) :
  authMode a = SignupMode ->
  authError (handleAuth a) = [] ->
  nonEmpty (trim (email a)) = true
  /\ nonEmpty (trim (password a)) = true
  /\ users (handleAuth a)
     = Some (<[trim (email a) := trim (password a)]> (storedUsersOf a)).
Proof.
  unfold handleAuth. intros ->.
  destruct (nonEmpty (trim (email a))); simpl; [|discriminate].
  destruct (nonEmpty (trim (password a))); simpl; [|discriminate].
  destruct (propertyTruthy _); simpl; [discriminate|]. done.
Qed.

(** A login with the stored password succeeds. *)
Lemma login_succeeds (a : AuthStore) :
  authMode a = LoginMode ->
  nonEmpty (trim (email a)) = true ->
  nonEmpty (trim (password a)) = true ->
  storedUsersOf a !! trim (email a) = Some (trim (password a)) ->
  authError (handleAuth a) = [] /\ user (handleAuth a) = Some (trim (email a)).
Proof.
  intros Hm He Hp Hs. unfold handleAuth. rewrite Hm, He, Hp. simpl.
  unfold readProperty. rewrite Hs. simpl. rewrite Hp. simpl.
  unfold strEq. rewrite bool_decide_eq_true_2 by reflexivity. done.
Qed.

(** X18.  Sign-up, then login: once a sign-up has succeeded, a login
    with the same email and password (up to surrounding white space)
    succeeds, whatever was typed or shown in between, as long as the
    stored users are those the sign-up left. *)
Theorem signup_then_login (a b : AuthStore) (e p e' p' : jsstring) :
  let signed := handleAuth (fillIn SignupMode e p a) in
  authError signed = [] ->
  users b = users signed ->
  trim e' = trim e ->
  trim p' = trim p ->
  let logged := handleAuth (fillIn LoginMode e' p' b) in
  authError logged = [] /\ user logged = Some (trim e).
Proof.
  intros signed Hok Hb He Hp logged.
  destruct (signup_succeeds (fillIn SignupMode e p a) eq_refl Hok)
    as (Hne & Hnp & Hu).
  simpl in Hne, Hnp, Hu. fold signed in Hu.
  rewrite <- He. subst logged.
  apply (login_succeeds (fillIn LoginMode e' p' b)); simpl.
  - reflexivity.
  - rewrite He. exact Hne.
  - rewrite Hp. exact Hnp.
  - unfold storedUsersOf. simpl. rewrite Hb, Hu, He, Hp.
    apply lookup_insert_eq.
Qed.

(** A store with no user, an empty form and no stored users. *)
Lemma signup_then_login_witness :
  let fresh := {| user := None; authMode := LoginMode; email := [];
                  password := []; authError := []; users := None |} in
  let signed := handleAuth (fillIn SignupMode (js " ann@example.org ")
                              (js "secret") fresh) in
  authError signed = []
  /\ users signed = users signed
  /\ trim (js "ann@example.org") = trim (js " ann@example.org ")
  /\ trim (js "secret ") = trim (js "secret")
  /\ authError (handleAuth (fillIn LoginMode (js "ann@example.org")
                              (js "secret ") signed)) = []
  /\ user (handleAuth (fillIn LoginMode (js "ann@example.org")
                         (js "secret ") signed))
     = Some (trim (js " ann@example.org ")).
Proof.
  split; [vm_compute; reflexivity|]. split; [reflexivity|].
  split; [vm_compute; reflexivity|]. split; [vm_compute; reflexivity|].
  refine (signup_then_login
            {| user := None; authMode := LoginMode; email := [];
               password := []; authError := []; users := None |}
            _ (js " ann@example.org ") (js "secret") (js "ann@example.org")
            (js "secret ") _ eq_refl _ _); vm_compute; reflexivity.
Defined.





(** ** The word count *)

Lemma splitFrom_word (current : jsstring) (skipping : bool) (s : jsstring) :
  current <> [] ->
  filter (fun piece => nonEmpty piece = true) (splitFrom current skipping s)
  <> [].
Proof.
  revert current skipping. induction s as [|c r IH]; intros current skipping H.
  - simpl. destruct current; [done|]. rewrite filter_cons_True by done. done.
  - simpl. destruct (isWhiteSpace c).
    + destruct skipping; [apply IH, H|].
      destruct current; [done|]. rewrite filter_cons_True by done. done.
    + apply IH. destruct current; done.
Qed.

Lemma splitFrom_blank (skipping : bool) (s : jsstring) :
  forallb isWhiteSpace s = true ->
  filter (fun piece => nonEmpty piece = true) (splitFrom [] skipping s) = [].
Proof.
  revert skipping. induction s as [|c r IH]; intros skipping H; simpl.
  - reflexivity.
  - simpl in H. apply andb_prop in H as [Hc Hr]. rewrite Hc.
    destruct skipping; [apply IH, Hr|].
    rewrite filter_cons_False by (simpl; discriminate). apply IH, Hr.
Qed.

Lemma splitFrom_nonblank (current : jsstring) (skipping : bool)
    (s : jsstring) :
  forallb isWhiteSpace s = false ->
  filter (fun piece => nonEmpty piece = true) (splitFrom current skipping s)
  <> [].
Proof.
  revert current skipping.
  induction s as [|c r IH]; intros current skipping H; simpl in *;
    [discriminate|].
  destruct (isWhiteSpace c); simpl in H.
  - destruct skipping; [apply IH, H|].
    destruct current as [|x current].
    + rewrite filter_cons_False by (simpl; discriminate). apply IH, H.
    + rewrite filter_cons_True by done. done.
  - apply splitFrom_word. destruct current; done.
Qed.

(** What [trim] leaves is blank only if it is empty. *)
Lemma trim_nonblank (s : jsstring) :
  trim s <> [] -> forallb isWhiteSpace (trim s) = false.
Proof.
  intros H. destruct (forallb isWhiteSpace (trim s)) eqn:E; [|reflexivity].
  exfalso. unfold trim, trimEnd in *.
  destruct (trimStart (rev (trimStart s))) as [|d u] eqn:Eu; [done|].
  pose proof (trimStart_head _ _ _ Eu) as Hd.
  rewrite forallb_forall in E. specialize (E d).
  rewrite Hd in E. discriminate E.
  apply in_rev. rewrite rev_involutive. left. reflexivity.
Qed.

(** X21.  The footer shows 0 words exactly when the final transcript is
    blank (empty or white space only), that is, exactly when the Export
    button is disabled ([!finalTranscript.trim()]). *)
Theorem wordCount_zero_iff_blank (finalTranscript : jsstring) :
  (wordCount finalTranscript = 0%nat
   <-> nonEmpty (trim finalTranscript) = false)
  /\ (wordCount finalTranscript = 0%nat
      <-> forallb isWhiteSpace finalTranscript = true).
Proof.
  assert (H : wordCount finalTranscript = 0%nat
              <-> nonEmpty (trim finalTranscript) = false).
  { unfold wordCount, splitWhiteSpace. split.
    - intros H. destruct (trim finalTranscript) as [|c r] eqn:E;
        [reflexivity|]. exfalso.
      apply length_zero_iff_nil in H. revert H. rewrite <- E.
      apply splitFrom_nonblank, trim_nonblank. rewrite E. discriminate.
    - intros H. destruct (trim finalTranscript); [reflexivity | discriminate]. }
  split; [exact H|]. rewrite H, trim_blank.
  destruct (trim finalTranscript); simpl; split; congruence.
Qed.

(** ** The colour of a progress bar *)

(** Turns the tests of [getProgressBarColor] into inequalities. *)
Ltac qle_cases :=
  repeat match goal with
         | |- context [Qle_bool ?a ?b] =>
             let E := fresh "E" in
             destruct (Qle_bool a b) eqn:E;
             [apply Qle_bool_iff in E
             |apply not_true_iff_false in E; rewrite Qle_bool_iff in E]
         end.

(** X22.  The colour of a progress bar is monotone in the value: for
    the filler-word count a larger value never gets a better level, for
    every other metric a larger value never gets a worse one. *)
Theorem getProgressBarColor_monotone (metric : jsstring) (v v' : Q) :
  (v <= v')%Q ->
  if strEq metric (js "filler_words") then
    (rank (getProgressBarColor v' metric)
     <= rank (getProgressBarColor v metric))%nat
  else
    (rank (getProgressBarColor v metric)
     <= rank (getProgressBarColor v' metric))%nat.
Proof.
  intros H. unfold getProgressBarColor.
  destruct (strEq metric (js "filler_words")); qle_cases; simpl;
    try lia; exfalso; lra.
Qed.

Lemma getProgressBarColor_monotone_witness :
  (59 <= 135 # 2)%Q
  /\ (rank (getProgressBarColor 59 (js "clarity"))
      <= rank (getProgressBarColor (135 # 2) (js "clarity")))%nat.
Proof.
  split; [discriminate|].
  exact (getProgressBarColor_monotone (js "clarity") 59 (135 # 2)
           ltac:(discriminate)).
Defined.

(** ** Clear and logout *)

(** X23.  [clearTranscript] and [handleLogout] always reset: whatever the
    render they run from, the store and the answers of the backend, they
    leave the transcript, the final transcript and [lastProcessedText]
    empty, the final analysis absent and the live stats at zero;
    [handleLogout] also leaves no session id and no interval in
    [statsIntervalRef]. *)
Theorem clear_and_logout_reset (view : State) (wStop : fetched StopReply)
    (wDelete : fetched unit) (s : Store) :
  let cleared := run (clearTranscript view wStop wDelete) s in
  let out := run (handleLogout view wStop wDelete) s in
  (transcript (state cleared) = []
   /\ finalTranscript (state cleared) = []
   /\ speechAnalysis (state cleared) = None
   /\ liveStats (state cleared) = initialStats
   /\ lastProcessedText (refs cleared) = [])
  /\ (transcript (state out) = []
      /\ finalTranscript (state out) = []
      /\ speechAnalysis (state out) = None
      /\ liveStats (state out) = initialStats
      /\ lastProcessedText (refs out) = []
      /\ sessionId (state out) = None
      /\ statsIntervalRef (refs out) = None).
Proof.
  intros cleared out.
  set (s1 := run (when (isRecording view) (stopRecording view wStop)) s).
  assert (Hs1 : when (isRecording view) (stopRecording view wStop) s
                = (Return tt, s1)).
  { subst s1. destruct (isRecording view); simpl;
      [apply stopRecording_returns | reflexivity]. }
  assert (Ec : cleared
    = run (setTranscript [];;
           setFinalTranscript [];;
           setSpeechAnalysis None;;
           match whenTruthy (sessionId view) with
           | Some id => deleteSession id wDelete;; setSessionId None
           | None => ret tt
           end;;
           setLiveStats zeroStats;;
           setRefs (withLastProcessedText [])) s1).
  { subst cleared. unfold clearTranscript. unfold run at 1.
    rewrite bind_returns; [reflexivity | rewrite Hs1; reflexivity]. }
  assert (Eo : out
    = run (stopStatsPolling;;
           match whenTruthy (sessionId view) with
           | Some id => deleteSession id wDelete
           | None => ret tt
           end;;
           setTranscript [];;
           setFinalTranscript [];;
           setSessionId None;;
           setSpeechAnalysis None;;
           setLiveStats zeroStats;;
           setRefs (withLastProcessedText [])) s1).
  { subst out. unfold handleLogout. unfold run at 1.
    rewrite bind_returns; [reflexivity | rewrite Hs1; reflexivity]. }
  rewrite Ec, Eo. clearbody s1. clear.
  unfold stopStatsPolling, run, bind. unfoldM. simpl.
  split.
  - destruct (whenTruthy (sessionId view)); simpl;
      rewrite ?deleteSession_runs; simpl; split_and!; reflexivity.
  - destruct (statsIntervalRef (refs s1)) eqn:E; simpl;
      destruct (whenTruthy (sessionId view)); simpl;
      rewrite ?deleteSession_runs; simpl; split_and!;
      first [reflexivity | exact E].
Qed.
